(** * asf-farms-cleaner: a shallow embedding of the batch driver

    The program reads Steam farm accounts from [./farms], logs each of them
    in through a pool of proxies, classifies it as active, banned, limited
    or unknown, and moves the files of the accounts it cleans into
    [./cleaned/<status>].  The embedding follows the entry script (main,
    readAccounts, cleanAccount and their helpers), [src/bot.ts] and
    [src/interfaces/account.interface.ts].

    What the program takes from Node is an interface here: the class [Host]
    has the calls of [fs] and [path] and [JSON.parse], and the definitions
    call them where the source does.  The remote service, with the packages
    in front of it, is the answer it gives to each call of [bot.start()]
    (an [attempt]).  [main] takes what [readDirectory] and [readProxies]
    returned, which are embedded further down.  The lines of the logger
    are events of the log, next to the calls of [fs] and of the bot. *)

From Stdlib Require Import ZArith QArith Ascii.
From stdpp Require Import base gmap strings list.

Set Warnings "-register-all".

(** ** JavaScript strings *)

Module JS.

(** [s.slice(n)] for [0 <= n]. *)
Fixpoint drop (n : nat) (s : string) : string :=
  match n, s with
  | O, _ => s
  | S _, EmptyString => EmptyString
  | S n', String _ s' => drop n' s'
  end.

(** [s.endsWith(suffix)]. *)
Definition endsWith (s suffix : string) : bool :=
  let n := String.length s in
  let k := String.length suffix in
  (k <=? n)%nat && String.eqb (drop (n - k) s) suffix.

(** [s.replace(pat, rep)] with a string pattern: the FIRST occurrence of
    [pat] is replaced, the rest of [s] is kept.  ([rep] holds no [$]
    pattern at the call sites.) *)
Fixpoint replace (pat rep s : string) : string :=
  if String.prefix pat s then rep +:+ drop (String.length pat) s
  else match s with
       | EmptyString => EmptyString
       | String c s' => String c (replace pat rep s')
       end.

(** [s.includes(needle)]. *)
Fixpoint includes (s needle : string) : bool :=
  String.prefix needle s ||
  match s with
  | EmptyString => false
  | String _ s' => includes s' needle
  end.

End JS.

(** ** JavaScript values, as [JSON.parse] builds them and the loader reads them *)

Inductive value : Type :=
  | Undefined
  | Null
  | Bool (b : bool)
  | Num (q : Q)
  | Str (s : string)
  | Arr (items : list value)
  | Obj (fields : gmap string value).

(** [!!v] *)
Definition truthy (v : value) : bool :=
  match v with
  | Undefined | Null => false
  | Bool b => b
  | Num q => negb (Qeq_bool q 0)
  | Str s => negb (String.eqb s "")
  | Arr _ | Obj _ => true
  end.

(** [v.k] and [v?.k] for the keys the loader reads ([SteamLogin],
    [SteamPassword], [_MobileAuthenticator], [shared_secret]), which no
    prototype defines: an own property of an object, otherwise [undefined].
    The source reads [v.k] only behind a truthiness test of [v]; on [null]
    and [undefined] this is [v?.k]. *)
Definition prop (v : value) (k : string) : value :=
  match v with
  | Obj fields => default Undefined (fields !! k)
  | _ => Undefined
  end.

(** ** src/interfaces/account.interface.ts *)

Inductive AccountStatus := Active | Banned | Limited | Unknown.

#[global] Instance AccountStatus_eq_dec : EqDecision AccountStatus.
Proof. solve_decision. Defined.

(** The enum's string values. *)
Definition statusLabel (s : AccountStatus) : string :=
  match s with
  | Active => "active"
  | Banned => "banned"
  | Limited => "limited"
  | Unknown => "unknown"
  end.

Record Account := mkAccount {
  id : string;
  status : AccountStatus;
  username : value;
  password : value;
  secret : value;
}.

Definition setStatus (a : Account) (s : AccountStatus) : Account :=
  mkAccount (id a) s (username a) (password a) (secret a).

Definition setSecret (a : Account) (v : value) : Account :=
  mkAccount (id a) (status a) (username a) (password a) v.

(** ** Errors and results *)

(** [new Error(message, { cause })]. *)
Inductive error := Error (message : string) (cause : option error).

Definition message_of (e : error) : string :=
  match e with Error m _ => m end.

Inductive result (A : Type) :=
  | Ok (a : A)
  | Throw (e : error).
Arguments Ok {A} a.
Arguments Throw {A} e.

(** ** The host: Node's [fs], [path] and [JSON.parse]

    The paths are the constants the script computes from [process.cwd()]. *)

Class Host := {
  FS : Type;
  existsSync : FS → string → bool;
  readFileSync : FS → string → result string;
  mkdirSync : string → FS → result FS;
  renameSync : string → string → FS → result FS;
  JSON_parse : string → result value;
  path_resolve : string → string → string;
  path_basename : string → string;
  configFilePath : string;
  cleanedDirectoryPath : string;
}.

(** What the program does to the outside, in order.  [account] is the index
    of the account in the array readAccounts returned. *)
Inductive event :=
  | EvExists (path : string)
  | EvRead (path : string)
  | EvMkdir (path : string)
  | EvRename (oldPath newPath : string)
  | EvStatus (account : nat) (s : AccountStatus)
  | EvLogInfo (account : nat) (s : AccountStatus)
  | EvLogError (account : nat) (message : string)
  | EvStart (account : nat)
  | EvWait (account : nat) (ms : Z)
  | EvStop (account : nat)
  | EvClean (account : nat).
(* [EvStart], [EvStop] and [EvClean] mark the calls of [bot.start()],
   [bot.stop()] and [cleanAccount(account)]. *)

#[global] Instance event_eq_dec : EqDecision event.
Proof. solve_decision. Defined.

(** ** Statements

    A statement may change the state and may throw; what it did before it
    threw stays done. *)

Section Monad.
Context {S : Type}.

Definition M (A : Type) : Type := S → result A * S.

Definition ret {A} (a : A) : M A := λ s, (Ok a, s).

Definition throw {A} (e : error) : M A := λ s, (Throw e, s).

Definition bind {A B} (m : M A) (k : A → M B) : M B :=
  λ s, match m s with
       | (Ok a, s') => k a s'
       | (Throw e, s') => (Throw e, s')
       end.

Definition gets {A} (f : S → A) : M A := λ s, (Ok (f s), s).

Definition modify (f : S → S) : M unit := λ s, (Ok tt, f s).

(** [try { m } catch (error) { h error }], and [p.catch(h)] *)
Definition try_catch {A} (m : M A) (h : error → M A) : M A :=
  λ s, match m s with
       | (Ok a, s') => (Ok a, s')
       | (Throw e, s') => h e s'
       end.

(** [p.finally(h)]: [h] runs however [p] settled; the outcome is that of
    [p] unless [h] throws. *)
Definition finally {A} (p : M A) (h : M unit) : M A :=
  λ s, match p s with
       | (r, s') => match h s' with
                    | (Ok _, s'') => (r, s'')
                    | (Throw e, s'') => (Throw e, s'')
                    end
       end.

End Monad.
Arguments M : clear implicits.

Notation "x <- m ;; k" := (bind m (λ x, k))
  (at level 100, m at next level, right associativity, only parsing).
Notation "m ;;; k" := (bind m (λ _, k))
  (at level 100, right associativity, only parsing).

Section Loader.
Context `{host : Host}.

Record world := mkWorld {
  fs : FS;
  log : list event;
}.

Definition emit (e : event) : M world unit :=
  modify (λ w, mkWorld (fs w) (log w ++ [e])).

Definition fs_existsSync (path : string) : M world bool :=
  emit (EvExists path) ;;; gets (λ w, existsSync (fs w) path).

Definition fs_readFileSync (path : string) : M world string :=
  emit (EvRead path) ;;; λ w, (readFileSync (fs w) path, w).

Definition fs_mkdirSync (path : string) : M world unit :=
  emit (EvMkdir path) ;;;
  λ w, match mkdirSync path (fs w) with
       | Ok f => (Ok tt, mkWorld f (log w))
       | Throw e => (Throw e, w)
       end.

Definition fs_renameSync (oldPath newPath : string) : M world unit :=
  emit (EvRename oldPath newPath) ;;;
  λ w, match renameSync oldPath newPath (fs w) with
       | Ok f => (Ok tt, mkWorld f (log w))
       | Throw e => (Throw e, w)
       end.

Definition parse (text : string) : M world value :=
  λ w, (JSON_parse text, w).

(** [account.id]: [jsonPath.replace('.json', '')]. *)
Definition accountId (jsonPath : string) : string :=
  JS.replace ".json" "" jsonPath.

(** The [.db] sidecar of ASF: [_MobileAuthenticator.shared_secret]. *)
Definition readDb (account : Account) : M world Account :=
  found <- fs_existsSync (id account +:+ ".db") ;;
  if (found : bool) then
    fileContent <- fs_readFileSync (id account +:+ ".db") ;;
    db <- parse fileContent ;;
    if truthy (prop (prop db "_MobileAuthenticator") "shared_secret")
    then ret (setSecret account (prop (prop db "_MobileAuthenticator") "shared_secret"))
    else ret account
  else ret account.

(** The [.mafile] and [.maFile] sidecars: [shared_secret].  The file is
    looked for only while the account has no secret ([&&] does not
    evaluate its right operand otherwise). *)
Definition readMafile (ext : string) (account : Account) : M world Account :=
  found <- (if negb (truthy (secret account))
            then fs_existsSync (id account +:+ ext)
            else ret false) ;;
  if (found : bool) then
    fileContent <- fs_readFileSync (id account +:+ ext) ;;
    mafile <- parse fileContent ;;
    if truthy (prop mafile "shared_secret")
    then ret (setSecret account (prop mafile "shared_secret"))
    else ret account
  else ret account.

Definition readSecret (account : Account) : M world Account :=
  account <- readDb account ;;
  account <- readMafile ".mafile" account ;;
  readMafile ".maFile" account.

(** One turn of the loop of readAccounts: [None] is [continue]. *)
Definition readAccount (jsonPath : string) : M world (option Account) :=
  fileContent <- fs_readFileSync jsonPath ;;
  json <- parse fileContent ;;
  if negb (truthy json)
     || negb (truthy (prop json "SteamLogin"))
     || negb (truthy (prop json "SteamPassword"))
  then ret None
  else
    account <- readSecret
      (mkAccount (accountId jsonPath) Active
                 (prop json "SteamLogin") (prop json "SteamPassword") Null) ;;
    ret (Some account).

Fixpoint readAccountsFrom (filePaths : list string) (accounts : list Account)
  : M world (list Account) :=
  match filePaths with
  | [] => ret accounts
  | jsonPath :: rest =>
      r <- readAccount jsonPath ;;
      readAccountsFrom rest
        (match r with Some account => accounts ++ [account] | None => accounts end)
  end.

(** readAccounts; [listing] is what [readDirectory(farmsDirectoryPath)]
    returned. *)
Definition readAccounts (listing : list string) : M world (list Account) :=
  readAccountsFrom (List.filter (λ f, JS.endsWith f ".json") listing) [].

End Loader.

(** ** src/bot.ts *)

(** What [parseInt(text, 10)] returns: [NaN] or an integer.  (A JavaScript
    number keeps 53 bits of a long integer; whether it is [0] is exact, and
    that is all the program asks of it.) *)
Inductive jsnumber := NaN | Int (z : Z).

Module ParseInt.

Definition isWhiteSpace (c : ascii) : bool :=
  let n := nat_of_ascii c in
  ((9 <=? n) && (n <=? 13) || (n =? 32) || (n =? 160))%nat.

Fixpoint trimStart (s : string) : string :=
  match s with
  | String c s' => if isWhiteSpace c then trimStart s' else s
  | EmptyString => s
  end.

Definition digit (c : ascii) : option Z :=
  let n := nat_of_ascii c in
  if ((48 <=? n) && (n <=? 57))%nat then Some (Z.of_nat n - 48)%Z else None.

(** The value of the longest prefix of digits, [None] when it is empty. *)
Fixpoint digits (s : string) (acc : option Z) : option Z :=
  match s with
  | String c s' =>
      match digit c with
      | Some d => digits s' (Some (10 * default 0 acc + d)%Z)
      | None => acc
      end
  | EmptyString => acc
  end.

Definition parseInt (text : string) : jsnumber :=
  match trimStart text with
  | String "-"%char s => match digits s None with Some z => Int (- z) | None => NaN end
  | String "+"%char s => match digits s None with Some z => Int z | None => NaN end
  | s => match digits s None with Some z => Int z | None => NaN end
  end.

End ParseInt.

(** The fields of a Bot that change; its [account] is kept next to it, in
    the task. *)
Record Bot := mkBot {
  proxy : option string;
  bans : option (list string);
  level : option jsnumber;
}.

(** What the remote service and the packages in front of it (steam-totp,
    steam-session, got, cheerio) answer to one call of [bot.start()]:
    - [guardCode]: what [SteamTotp.getAuthCode] throws, if it does;
    - [session]: what the login promise of retrieveToken rejects with;
    - [webCookies]: what fails in the [try] of retrieveCookies;
    - [supportmessages]: the text of the support messages page;
    - [friendPlayerLevelNum]: the text of the level element of the badges
      page. *)
Record attempt := mkAttempt {
  guardCode : option error;
  session : option error;
  webCookies : option error;
  supportmessages : result string;
  friendPlayerLevelNum : result string;
}.

Section Task.
Context `{host : Host}.

(** One account's task: the account object, its bot, and the world. *)
Record task := mkTask {
  account : Account;
  bot : Bot;
  env : world;
}.

Definition lift {A} (m : M world A) : M task A :=
  λ t, match m (env t) with
       | (r, w) => (r, mkTask (account t) (bot t) w)
       end.

Definition setBans (b : list string) : M task unit :=
  modify (λ t, mkTask (account t) (mkBot (proxy (bot t)) (Some b) (level (bot t))) (env t)).

Definition setLevel (n : jsnumber) : M task unit :=
  modify (λ t, mkTask (account t) (mkBot (proxy (bot t)) (bans (bot t)) (Some n)) (env t)).

(** [account.status = s] *)
Definition writeStatus (i : nat) (s : AccountStatus) : M task unit :=
  modify (λ t, mkTask (setStatus (account t) s) (bot t) (env t)) ;;;
  lift (emit (EvStatus i s)).

(** [bot.stop()]: [this.agent.destroy()]. *)
Definition stop (i : nat) : M task unit := lift (emit (EvStop i)).

Definition retrieveToken (att : attempt) : M task unit :=
  a <- gets account ;;
  (if truthy (secret a)
   then match guardCode att with Some e => throw e | None => ret tt end
   else ret tt) ;;;
  match session att with
  | Some e => throw (Error "Failed to retrieve token" (Some e))
  | None => ret tt
  end.

Definition retrieveCookies (att : attempt) : M task unit :=
  match webCookies att with
  | Some e => throw (Error "Failed to retrieve cookies" (Some e))
  | None => ret tt
  end.

Definition retriveBansInfo (att : attempt) : M task unit :=
  match supportmessages att with
  | Ok response =>
      setBans (if JS.includes response "Account functionality has been restricted"
               then ["community ban"] else [])
  | Throw e => throw (Error "Failed to retrieve bans info" (Some e))
  end.

Definition retrieveProfileLevel (att : attempt) : M task unit :=
  match friendPlayerLevelNum att with
  | Ok text =>
      if String.eqb text ""
      then throw (Error "Failed to retrieve profile level"
                        (Some (Error "Bad server response" None)))
      else setLevel (ParseInt.parseInt text)
  | Throw e => throw (Error "Failed to retrieve profile level" (Some e))
  end.

(** [bot.start()] *)
Definition start (i : nat) (att : attempt) : M task unit :=
  lift (emit (EvStart i)) ;;;
  try_catch
    (retrieveToken att ;;;
     retrieveCookies att ;;;
     retriveBansInfo att ;;;
     retrieveProfileLevel att)
    (λ error, stop i ;;; throw (Error "Failed to start" (Some error))).

End Task.

(** ** The retry wrapper and the queue *)

(** The options [main] passes to [pRetry]. *)
Record RetryOptions := mkRetryOptions {
  retries : nat;
  minTimeout : Z;
  maxTimeout : Z;
}.

(** The options [main] passes to [new PQueue]. *)
Record QueueOptions := mkQueueOptions {
  concurrency : nat;
  interval : Z;
  intervalCap : nat;
}.

Section Retry.
Context {S A : Type}.
Variable wait : Z → M S unit.

(** Modelled from the spec: the delay of the retry wrapper before retry
    [k] (from 0), between the [minTimeout] and the [maxTimeout] of its
    policy: [minTimeout] grown by the factor of the package, 2 unless set,
    and capped by [maxTimeout].  With the two equal, as [main] sets them,
    the delay is fixed ([retryDelay_main]). *)
Definition retryDelay (o : RetryOptions) (k : nat) : Z :=
  Z.min (Z.max (minTimeout o) 1 * 2 ^ Z.of_nat k) (maxTimeout o).

(** Modelled from the spec: the loop of the retry wrapper, with [left]
    retries left after attempt [n]. *)
Fixpoint pRetryFrom (o : RetryOptions) (left n : nat) (input : nat → M S A) : M S A :=
  try_catch (input n)
    (λ error,
       match left with
       | O => throw error
       | Datatypes.S left' =>
           wait (retryDelay o n) ;;; pRetryFrom o left' (Datatypes.S n) input
       end).

(** Modelled from the spec: the retry wrapper, the package p-retry, whose
    code is not under src/.  It invokes the action; on failure it waits
    and retries, up to [retries o + 1] attempts in all; when the last
    attempt fails it throws what that attempt threw.  [input n] is call
    [n] (from 0) of the action. *)
Definition pRetry (input : nat → M S A) (o : RetryOptions) : M S A :=
  pRetryFrom o (retries o) 0 input.

End Retry.

(** ** The entry script *)

(** What the constructor of Bot takes from the package hpagent:
    [agentError proxy] is what [new HttpsProxyAgent({ proxy, ... })] throws
    for [proxy], when it throws; it parses the proxy as a URL. *)
Class Agents := {
  agentError : string → option error;
}.

Section Main.
Context `{host : Host} `{agents : Agents}.

Definition getDefaultConfig : value :=
  Obj (<["CleanLimitedAccounts" := Bool true]>
       (<["CleanBannedAccounts" := Bool true]> ∅)).

(** readConfig: whatever [JSON.parse] returns is taken as the Config. *)
Definition readConfig : M world value :=
  try_catch
    (fileContent <- fs_readFileSync configFilePath ;; parse fileContent)
    (λ _, ret getDefaultConfig).

(** [v.k] not behind a test: a TypeError on [null] and [undefined]. *)
Definition member {S} (v : value) (k : string) : M S value :=
  match v with
  | Undefined | Null => throw (Error "Cannot read properties of null" None)
  | _ => ret (prop v k)
  end.

(** The optional sidecars of cleanAccount. *)
Definition moveIfExists (directoryPath path : string) : M world unit :=
  found <- fs_existsSync path ;;
  if (found : bool)
  then fs_renameSync path (path_resolve directoryPath (path_basename path))
  else ret tt.

Definition cleanAccount (account : Account) : M world unit :=
  let directoryPath := path_resolve cleanedDirectoryPath (statusLabel (status account)) in
  found <- fs_existsSync directoryPath ;;
  (if (found : bool) then ret tt else fs_mkdirSync directoryPath) ;;;
  let jsonPath := id account +:+ ".json" in
  fs_renameSync jsonPath (path_resolve directoryPath (path_basename jsonPath)) ;;;
  moveIfExists directoryPath (id account +:+ ".db") ;;;
  moveIfExists directoryPath (id account +:+ ".mafile") ;;;
  moveIfExists directoryPath (id account +:+ ".maFile") ;;;
  moveIfExists directoryPath (id account +:+ ".bin").

(** [concurrency], and the queue built from it. *)
Definition concurrencyOf (proxies : list string) : nat :=
  if (length proxies =? 0)%nat then 1%nat else length proxies.

Definition queueOptions (proxies : list string) : QueueOptions :=
  mkQueueOptions (concurrencyOf proxies) 30000 (concurrencyOf proxies).

Definition retryOptions : RetryOptions := mkRetryOptions 3 30000 30000.

(** [proxies[index++ % proxies.length]]; [undefined] with no proxy,
    which the constructor of Bot turns into [null]. *)
Definition proxyFor (proxies : list string) (index : nat) : option string :=
  proxies !! (index mod length proxies)%nat.

(** [bot.level === 0] *)
Definition levelIsZero (level : option jsnumber) : bool :=
  match level with
  | Some (Int 0) => true
  | _ => false
  end.

(** The three branches of the [then] handler. *)
Definition classify (bans : list string) (level : option jsnumber) : AccountStatus :=
  if (0 <? length bans)%nat then Banned
  else if levelIsZero level then Limited
  else Active.

(** [() => pRetry(() => bot.start(), {...})]; [service n] is what the
    remote service answers to call [n] of [bot.start()]. *)
Definition taskOf (i : nat) (service : nat → attempt) : M task unit :=
  pRetry (λ ms, lift (emit (EvWait i ms))) (λ n, start i (service n)) retryOptions.

Definition onFulfilled (i : nat) : M task unit :=
  b <- gets (λ t, bans (bot t)) ;;
  match b with
  | None => throw (Error "Cannot read properties of undefined (reading 'length')" None)
  | Some b =>
      l <- gets (λ t, level (bot t)) ;;
      writeStatus i (classify b l) ;;;
      a <- gets account ;;
      lift (emit (EvLogInfo i (status a)))
  end.

Definition onRejected (i : nat) (error : error) : M task unit :=
  writeStatus i Unknown ;;;
  lift (emit (EvLogError i (message_of error))).

(** The [finally] handler after [bot.stop()]: cleanAccount or not. *)
Definition dispatch (config : value) (i : nat) : M task unit :=
  a <- gets account ;;
  if decide (status a = Active) then ret tt else
  skip <- (if decide (status a = Banned)
           then c <- member config "CleanBannedAccounts" ;; ret (negb (truthy c))
           else ret false) ;;
  if (skip : bool) then ret tt else
  skip <- (if decide (status a = Limited)
           then c <- member config "CleanLimitedAccounts" ;; ret (negb (truthy c))
           else ret false) ;;
  if (skip : bool) then ret tt else
  lift (emit (EvClean i) ;;; cleanAccount a).

Definition onFinally (config : value) (i : nat) : M task unit :=
  stop i ;;; dispatch config i.

(** [p.then(...).catch(...)]: the handlers that write the status. *)
Definition classifier (i : nat) (p : M task unit) : M task unit :=
  try_catch (p ;;; onFulfilled i) (onRejected i).

(** [p.then(...).catch(...).finally(...)] on the promise [p] of the queue. *)
Definition handlers (config : value) (i : nat) (p : M task unit) : M task unit :=
  finally (classifier i p) (onFinally config i).

(** A promise that has settled with [outcome]. *)
Definition settled (outcome : result unit) : M task unit :=
  λ t, (outcome, t).

(** [new Bot(account, proxy)]: the agent is an [HttpsProxyAgent] when the
    proxy is truthy, and the constructor of that one may throw; it is an
    [Agent] otherwise.  [bans] and [level] are not set. *)
Definition newBot (proxy : option string) : result Bot :=
  match proxy with
  | Some p =>
      if String.eqb p "" then Ok (mkBot proxy None None)
      else match agentError p with
           | Some e => Throw e
           | None => Ok (mkBot proxy None None)
           end
  | None => Ok (mkBot None None None)
  end.

(** The loop of [main]: a bot for every account, in order, and its task
    added to the queue.  The loop ends where [new Bot] throws, with the
    error; the accounts before that one are in the queue with their
    bots. *)
Fixpoint submitted (proxies : list string) (index : nat) (accounts : list Account)
  : list (Account * Bot) * option error :=
  match accounts with
  | [] => ([], None)
  | a :: rest =>
      match newBot (proxyFor proxies index) with
      | Throw e => ([], Some e)
      | Ok b =>
          let (tasks, e) := submitted proxies (Datatypes.S index) rest in
          ((a, b) :: tasks, e)
      end
  end.

(** The calls of [bot.start()] the queue has made when the loop ends on a
    throw of [new Bot]: one for each of the [n] tasks added before it,
    which are fewer than the proxies and so than its concurrency. *)
Definition started (n : nat) : M world unit :=
  modify (λ w, mkWorld (fs w) (log w ++ List.map EvStart (seq 0 n))).

(** The chains of the tasks in the queue, from account [index] on, each
    from its task to the end of its [finally] handler.  They are run in
    the order of submission, which is the order of the queue when it runs
    one task at a time (one proxy or none); the events of two chains
    interleave otherwise.  Nothing handles a chain that is rejected, which
    it is when its [finally] handler throws: Node ends the process there,
    and the chains behind it are not run.  [services i] is the remote
    service as account [i] meets it.

    This is the run to the end of the process, not to the return of
    [await queue.onIdle()], which may come before the handlers of the last
    chain; [main] then waits 10 seconds. *)
Fixpoint runChains (config : value) (services : nat → nat → attempt) (index : nat)
    (tasks : list (Account * Bot)) : M world (list Account) :=
  match tasks with
  | [] => ret []
  | (a, b) :: rest =>
      λ w, match handlers config index (taskOf index (services index))
                     (mkTask a b w) with
           | (Ok _, t) =>
               match runChains config services (Datatypes.S index) rest (env t) with
               | (Ok accounts, w') => (Ok (account t :: accounts), w')
               | (Throw e, w') => (Throw e, w')
               end
           | (Throw e, t) => (Throw e, env t)
           end
  end.

(** [main], given what readDirectory and readProxies returned.  A throw of
    the loader or of [new Bot] rejects the promise of [main], which nothing
    handles either. *)
Definition main (listing proxies : list string) (services : nat → nat → attempt)
  : M world (list Account) :=
  config <- readConfig ;;
  accounts <- readAccounts listing ;;
  match submitted proxies 0 accounts with
  | (tasks, Some e) => started (length tasks) ;;; throw e
  | (tasks, None) => runChains config services 0 tasks
  end.

End Main.

(** ** A small host for the examples

    Files by path, directories as entries of their own; [JSON.parse] as far
    as the examples go. *)

Module Demo.

Inductive node := File (content : string) | Directory.

Definition exists_ (f : gmap string node) (path : string) : bool :=
  bool_decide (is_Some (f !! path)).

Definition read (f : gmap string node) (path : string) : result string :=
  match f !! path with
  | Some (File content) => Ok content
  | Some Directory => Throw (Error "EISDIR" None)
  | None => Throw (Error "ENOENT" None)
  end.

Definition mkdir (path : string) (f : gmap string node) : result (gmap string node) :=
  match f !! path with
  | Some (File _) => Throw (Error "EEXIST" None)
  | Some Directory => Ok f
  | None => Ok (<[path := Directory]> f)
  end.

Definition rename (oldPath newPath : string) (f : gmap string node)
  : result (gmap string node) :=
  match f !! oldPath with
  | Some n => Ok (<[newPath := n]> (delete oldPath f))
  | None => Throw (Error "ENOENT" None)
  end.

Definition quoted (s : string) : string :=
  String "034"%char s +:+ String "034"%char EmptyString.

(** The credentials of [user], and a [.maFile] with a secret. *)
Definition credentialsText : string :=
  "{" +:+ quoted "SteamLogin" +:+ ":" +:+ quoted "user" +:+ ","
      +:+ quoted "SteamPassword" +:+ ":" +:+ quoted "pass" +:+ "}".

Definition mafileText : string :=
  "{" +:+ quoted "shared_secret" +:+ ":" +:+ quoted "c2VjcmV0" +:+ "}".

Definition texts : list (string * value) :=
  [ ("{}", Obj ∅);
    ("null", Null);
    (credentialsText,
     Obj (<["SteamLogin" := Str "user"]> (<["SteamPassword" := Str "pass"]> ∅)));
    (mafileText, Obj (<["shared_secret" := Str "c2VjcmV0"]> ∅)) ].

(** The texts of the table parse to their values; [{] is a SyntaxError,
    as is every other text here. *)
Definition parse (text : string) : result value :=
  match List.find (λ entry, String.eqb entry.1 text) texts with
  | Some entry => Ok entry.2
  | None => Throw (Error "SyntaxError" None)
  end.

Definition resolve (directory name : string) : string :=
  directory +:+ "/" +:+ name.

Fixpoint basename (path : string) : string :=
  match path with
  | EmptyString => EmptyString
  | String _ rest => if JS.includes path "/" then basename rest else path
  end.

Definition host : Host := {|
  FS := gmap string node;
  existsSync := exists_;
  readFileSync := read;
  mkdirSync := mkdir;
  renameSync := rename;
  JSON_parse := parse;
  path_resolve := resolve;
  path_basename := basename;
  configFilePath := "config.json";
  cleanedDirectoryPath := "cleaned";
|}.

(** A proxy is a URL here when it names the scheme [http] or [https]. *)
Definition agents : Agents := {|
  agentError := λ proxy,
    if String.prefix "http://" proxy || String.prefix "https://" proxy
    then None else Some (Error "Invalid URL" None);
|}.

(** [farms/a1.json] with its [.maFile], and the account read from them. *)
Definition disk : gmap string node :=
  <["farms/a1.json" := File credentialsText]>
    (<["farms/a1.maFile" := File mafileText]> ∅).

Definition a1 : Account :=
  mkAccount "farms/a1" Active (Str "user") (Str "pass") (Str "c2VjcmV0").

(** The service is down. *)
Definition down : attempt :=
  mkAttempt None (Some (Error "Session timed out" None)) None
            (Throw (Error "unreachable" None)) (Throw (Error "unreachable" None)).

(** The service answers: no ban, level 5. *)
Definition up : attempt :=
  mkAttempt None None None (Ok "") (Ok "5").

End Demo.

(** ** The vocabulary of the properties *)

#[global] Instance jsnumber_eq_dec : EqDecision jsnumber.
Proof. solve_decision. Defined.

(** The classifier in the words of its contract. *)
Definition classifierContract (failed : bool) (bans : list string)
    (level : option jsnumber) : AccountStatus :=
  if failed then Unknown
  else if bool_decide (bans ≠ []) then Banned
  else if bool_decide (level = Some (Int 0)) then Limited
  else Active.

Definition failed (outcome : result unit) : bool :=
  match outcome with
  | Ok _ => false
  | Throw _ => true
  end.

Definition count (f : event → bool) (l : list event) : nat :=
  length (List.filter f l).

Definition isStop (i : nat) (e : event) : bool :=
  match e with
  | EvStop j => Nat.eqb j i
  | _ => false
  end.

Definition isStart (i : nat) (e : event) : bool :=
  match e with
  | EvStart j => Nat.eqb j i
  | _ => false
  end.

Definition isWait (i : nat) (e : event) : bool :=
  match e with
  | EvWait j _ => Nat.eqb j i
  | _ => false
  end.

Definition isClean (i : nat) (e : event) : bool :=
  match e with
  | EvClean j => Nat.eqb j i
  | _ => false
  end.

(** The calls of [fs]. *)
Definition isFs (e : event) : bool :=
  match e with
  | EvExists _ | EvRead _ | EvMkdir _ | EvRename _ _ => true
  | _ => false
  end.

(** Statements that append to the log, and nothing that [f] counts. *)
Definition silentW `{host : Host} (f : event → bool) {A} (m : M world A) : Prop :=
  ∀ w, ∃ new, log (m w).2 = log w ++ new ∧ count f new = 0%nat.

(** The same for the statements of a task, which moreover leave the
    account as it is. *)
Definition silentT `{host : Host} (f : event → bool) {A} (m : M task A) : Prop :=
  ∀ t, account (m t).2 = account t ∧
       ∃ new, log (env (m t).2) = log (env t) ++ new ∧ count f new = 0%nat.

(** What [bot.start()] catches on the answer [att], if anything: whether
    it does depends on the answer and on the account having a secret. *)
Definition startFailure (a : Account) (att : attempt) : option error :=
  match (if truthy (secret a) then guardCode att else None) with
  | Some e => Some e
  | None =>
  match session att with
  | Some e => Some (Error "Failed to retrieve token" (Some e))
  | None =>
  match webCookies att with
  | Some e => Some (Error "Failed to retrieve cookies" (Some e))
  | None =>
  match supportmessages att with
  | Throw e => Some (Error "Failed to retrieve bans info" (Some e))
  | Ok _ =>
  match friendPlayerLevelNum att with
  | Throw e => Some (Error "Failed to retrieve profile level" (Some e))
  | Ok text =>
      if String.eqb text ""
      then Some (Error "Failed to retrieve profile level"
                       (Some (Error "Bad server response" None)))
      else None
  end end end end end.

(** The events of the retried task, with [left] retries left after call
    [n]. *)
Fixpoint retryTrace (i : nat) (a : Account) (o : RetryOptions)
    (service : nat → attempt) (left n : nat) : list event :=
  EvStart i ::
  match startFailure a (service n) with
  | None => []
  | Some _ =>
      EvStop i ::
      match left with
      | O => []
      | S left' => EvWait i (retryDelay o n) :: retryTrace i a o service left' (S n)
      end
  end.

(** The number of calls of [bot.start()] that fail, among them. *)
Fixpoint failures (a : Account) (service : nat → attempt) (left n : nat) : nat :=
  match startFailure a (service n) with
  | None => 0
  | Some _ =>
      S (match left with
         | O => 0
         | S left' => failures a service left' (S n)
         end)
  end.

(** What the retried task settles with. *)
Fixpoint retryOutcome (a : Account) (service : nat → attempt) (left n : nat)
  : result unit :=
  match startFailure a (service n) with
  | None => Ok tt
  | Some e =>
      match left with
      | O => Throw (Error "Failed to start" (Some e))
      | S left' => retryOutcome a service left' (S n)
      end
  end.

(** The status the [then] and [catch] handlers write: with no list of bans
    the [then] handler throws and the [catch] handler takes over. *)
Definition assigned (outcome : result unit) (b : Bot) : AccountStatus :=
  match outcome, bans b with
  | Ok _, Some l => classify l (level b)
  | _, _ => Unknown
  end.

(** The line they log. *)
Definition logged (i : nat) (outcome : result unit) (b : Bot) : event :=
  match outcome, bans b with
  | Ok _, Some l => EvLogInfo i (classify l (level b))
  | Ok _, None =>
      EvLogError i "Cannot read properties of undefined (reading 'length')"
  | Throw e, _ => EvLogError i (message_of e)
  end.

(** The statuses written to account [i] over a log, in order. *)
Fixpoint statusWrites (i : nat) (l : list event) : list AccountStatus :=
  match l with
  | [] => []
  | EvStatus j s :: l' =>
      if Nat.eqb j i then s :: statusWrites i l' else statusWrites i l'
  | _ :: l' => statusWrites i l'
  end.

Definition isStatusAny (e : event) : bool :=
  match e with
  | EvStatus _ _ => true
  | _ => false
  end.

Definition waits30s (e : event) : Prop :=
  match e with
  | EvWait _ ms => ms = 30000%Z
  | _ => True
  end.

(** The calls of [bot.start()] and the waits of a task that calls it
    [attempts] times, in order: a wait of 30 seconds between a call and
    the next, none before the first call and none after the last. *)
Fixpoint schedule (i : nat) (attempts : nat) : list event :=
  match attempts with
  | O => []
  | S m =>
      EvStart i ::
      match m with
      | O => []
      | S _ => EvWait i 30000 :: schedule i m
      end
  end.

(** The lookup of the secret in the words of its contract: the candidates
    in their order, each with the field read from it. *)
Definition sidecars : list (string * (value → value)) :=
  [ (".db", λ v, prop (prop v "_MobileAuthenticator") "shared_secret");
    (".mafile", λ v, prop v "shared_secret");
    (".maFile", λ v, prop v "shared_secret") ].

(** The first candidate that exists and yields a truthy secret gives it and
    ends the lookup; with none the secret is [null]. *)
Fixpoint firstSecret `{host : Host} (accountId : string)
    (candidates : list (string * (value → value))) : M world value :=
  match candidates with
  | [] => ret Null
  | (ext, field) :: later =>
      found <- fs_existsSync (accountId +:+ ext) ;;
      if (found : bool) then
        fileContent <- fs_readFileSync (accountId +:+ ext) ;;
        v <- parse fileContent ;;
        if truthy (field v) then ret (field v) else firstSecret accountId later
      else firstSecret accountId later
  end.

(** Statements that only read the files: they leave them as they are, and
    their outcome depends on nothing else. *)
Definition reader `{host : Host} {A} (m : M world A) : Prop :=
  ∀ w, fs (m w).2 = fs w ∧ ∀ w', fs w' = fs w → (m w').1 = (m w).1.

(** ** The rest of the entry script and of the bot *)

(** The strings of readProxies.  White space is that of [ParseInt]: the
    white space and the line terminators of JavaScript among the
    characters of one byte. *)
Module Lines.

(** [s.split(sep)] for a separator of one character. *)
Fixpoint split (sep : ascii) (s : string) : list string :=
  match s with
  | EmptyString => [EmptyString]
  | String c s' =>
      if Ascii.eqb c sep then EmptyString :: split sep s'
      else match split sep s' with
           | [] => [String c EmptyString]
           | line :: lines => String c line :: lines
           end
  end.

Fixpoint trimEnd (s : string) : string :=
  match s with
  | EmptyString => EmptyString
  | String c s' =>
      match trimEnd s' with
      | EmptyString => if ParseInt.isWhiteSpace c then EmptyString else String c EmptyString
      | rest => String c rest
      end
  end.

(** [s.trim()] *)
Definition trim (s : string) : string := trimEnd (ParseInt.trimStart s).

(** [[...new Set(l)]]: the first occurrence of every string, in order;
    [seen] are the strings already in the set. *)
Fixpoint unique (seen l : list string) : list string :=
  match l with
  | [] => []
  | x :: l' =>
      if bool_decide (x ∈ seen) then unique seen l'
      else x :: unique (x :: seen) l'
  end.

End Lines.

(** What readProxies and readDirectory further take from Node: the two
    paths, [fs.readdirSync], [fs.statSync(p).isDirectory()], [path.join]. *)
Class HostDirs `{host : Host} := {
  proxiesFilePath : string;
  farmsDirectoryPath : string;
  readdirSync : FS → string → result (list string);
  isDirectory : FS → string → result bool;
  path_join : string → string → string;
}.

(** readProxies *)
Definition readProxies `{dirs : HostDirs} : M world (list string) :=
  try_catch
    (fileContent <- fs_readFileSync proxiesFilePath ;;
     ret (Lines.unique []
            (List.filter (λ proxy, negb (String.eqb proxy ""))
               (List.map Lines.trim (Lines.split "010"%char fileContent)))))
    (λ _, ret []).

(** The loop of readDirectory over the entries of a directory; [recurse]
    is readDirectory itself. *)
Fixpoint readEntities `{dirs : HostDirs} (recurse : string → option (result (list string)))
    (files : FS) (entities filePaths : list string) : option (result (list string)) :=
  match entities with
  | [] => Some (Ok filePaths)
  | entity :: rest =>
      match isDirectory files entity with
      | Throw e => Some (Throw e)
      | Ok true =>
          match recurse entity with
          | None => None
          | Some (Throw e) => Some (Throw e)
          | Some (Ok below) => readEntities recurse files rest (filePaths ++ below)
          end
      | Ok false => readEntities recurse files rest (filePaths ++ [entity])
      end
  end.

(** readDirectory, a function of the files: it calls itself on every
    directory it meets, [fuel] calls deep at most; [None] when that is not
    enough. *)
Fixpoint readDirectory `{dirs : HostDirs} (fuel : nat) (files : FS) (entityPath : string)
  : option (result (list string)) :=
  match fuel with
  | O => None
  | S fuel' =>
      if String.eqb entityPath "" || negb (existsSync files entityPath)
      then Some (Ok [])
      else match readdirSync files entityPath with
           | Throw e => Some (Throw e)
           | Ok names =>
               readEntities (readDirectory fuel' files) files
                 (List.map (path_join entityPath) names) []
           end
  end.

(** retrieveCookies: the cookies of the session without their language,
    and the English one. *)
Definition languageCookies (cookies : list string) : list string :=
  List.filter (λ cookie, negb (String.prefix "Steam_Language=" cookie)) cookies
    ++ ["Steam_Language=english"].

(** retrieveCookies: the calls of [jar.setCookieSync], cookie and site. *)
Definition jarCalls (cookies : list string) : list (string * string) :=
  List.flat_map
    (λ cookie, [(cookie, "https://steamcommunity.com");
                (cookie, "https://store.steampowered.com")])
    cookies.

(** The toggle of the configuration the [finally] handler reads for a
    status, if it reads one. *)
Definition toggleOf (s : AccountStatus) : option string :=
  match s with
  | Banned => Some "CleanBannedAccounts"
  | Limited => Some "CleanLimitedAccounts"
  | Active | Unknown => None
  end.

(** [v == null] *)
Definition nullish (v : value) : bool :=
  match v with
  | Undefined | Null => true
  | _ => false
  end.

(** The signals [bot.start()] stores from an answer: the bans read off the
    support messages page, the level read off the badges page. *)
Definition bansOf (att : attempt) : list string :=
  match supportmessages att with
  | Ok response =>
      if JS.includes response "Account functionality has been restricted"
      then ["community ban"] else []
  | Throw _ => []
  end.

Definition levelOf (att : attempt) : jsnumber :=
  match friendPlayerLevelNum att with
  | Ok text => ParseInt.parseInt text
  | Throw _ => NaN
  end.

(** The answer to the first call of [bot.start()] that succeeds, among
    call [n] and the [left] calls after it. *)
Fixpoint firstSuccess (a : Account) (service : nat → attempt) (left n : nat)
  : option attempt :=
  match startFailure a (service n) with
  | None => Some (service n)
  | Some _ =>
      match left with
      | O => None
      | S left' => firstSuccess a service left' (S n)
      end
  end.

(** The events that are no call of [fs]. *)
Definition notFs (e : event) : bool := negb (isFs e).

(** A string with no white space at either end. *)
Definition trimmed (s : string) : Prop := Lines.trim s = s.

(** A host for the examples of readProxies and readDirectory: the entries
    of a directory are the paths one name below it. *)
Module DemoDirs.

(** The name of [path] in [directory], when it is right below it. *)
Definition nameIn (directory path : string) : option string :=
  let prefix := directory +:+ "/" in
  let name := JS.drop (String.length prefix) path in
  if String.prefix prefix path && negb (String.eqb name "")
     && negb (JS.includes name "/")
  then Some name else None.

Definition readdir (f : gmap string Demo.node) (directory : string)
  : result (list string) :=
  match f !! directory with
  | Some Demo.Directory => Ok (omap (λ entry, nameIn directory entry.1) (map_to_list f))
  | Some (Demo.File _) => Throw (Error "ENOTDIR" None)
  | None => Throw (Error "ENOENT" None)
  end.

Definition isDir (f : gmap string Demo.node) (path : string) : result bool :=
  match f !! path with
  | Some Demo.Directory => Ok true
  | Some (Demo.File _) => Ok false
  | None => Throw (Error "ENOENT" None)
  end.

Definition dirs : HostDirs (host := Demo.host) :=
  @Build_HostDirs Demo.host "proxies.txt" "farms" readdir isDir Demo.resolve.

End DemoDirs.

(** What readAccounts guarantees of an account it returns for [listing]. *)
Definition loaded (listing : list string) (a : Account) : Prop :=
  truthy (username a) = true
  ∧ truthy (password a) = true
  ∧ status a = Active
  ∧ (secret a = Null ∨ truthy (secret a) = true)
  ∧ ∃ jsonPath, jsonPath ∈ listing
                ∧ JS.endsWith jsonPath ".json" = true
                ∧ id a = accountId jsonPath.

(** The events that are no [fs.existsSync] and no [fs.readFileSync]. *)
Definition notRead (e : event) : bool :=
  match e with
  | EvExists _ | EvRead _ => false
  | _ => true
  end.

(** The five files of an account. *)
Definition filesOf (a : Account) : list string :=
  [id a +:+ ".json"; id a +:+ ".db"; id a +:+ ".mafile"; id a +:+ ".maFile";
   id a +:+ ".bin"].

(** The events cleanAccount has no business with on account [a]: every
    event but a test of existence, the making of the directory of the
    status of [a], and the move of one of the files of [a] into that
    directory under its own name. *)
Definition foreignTo `{host : Host} (a : Account) (e : event) : bool :=
  let directoryPath := path_resolve cleanedDirectoryPath (statusLabel (status a)) in
  match e with
  | EvExists _ => false
  | EvMkdir path => negb (String.eqb path directoryPath)
  | EvRename oldPath newPath =>
      negb (existsb (String.eqb oldPath) (filesOf a)
            && String.eqb newPath (path_resolve directoryPath (path_basename oldPath)))
  | _ => true
  end.

Definition isRename (e : event) : bool :=
  match e with
  | EvRename _ _ => true
  | _ => false
  end.

(** A directory tree that readDirectory walks in [n] nested calls: the
    path is empty, missing or cannot be listed, or its entries that are
    directories are walked in [n - 1]. *)
Inductive walkable `{dirs : HostDirs} (files : FS) : nat → string → Prop :=
  | walkable_leaf (n : nat) (entityPath : string) :
      String.eqb entityPath "" || negb (existsSync files entityPath) = true
      ∨ (∃ e, readdirSync files entityPath = Throw e) →
      walkable files (S n) entityPath
  | walkable_dir (n : nat) (entityPath : string) (names : list string) :
      readdirSync files entityPath = Ok names →
      (∀ name, name ∈ names →
               isDirectory files (path_join entityPath name) = Ok true →
               walkable files n (path_join entityPath name)) →
      walkable files (S n) entityPath.

(** For the examples: a farm with a directory in it. *)
Definition farm : gmap string Demo.node :=
  <["farms" := Demo.Directory]>
    (<["farms/a1.json" := Demo.File Demo.credentialsText]>
       (<["farms/old" := Demo.Directory]>
          (<["farms/old/a2.json" := Demo.File Demo.credentialsText]> ∅))).

(** * Properties *)

(** ** The queue *)

(** C7: the concurrency is the number of proxies, 1 when there is none, and
    the queue takes it as its concurrency and as the cap of its interval of
    30 seconds. *)
Theorem queue_caps_are_proxy_count (proxies : list string) :
  concurrency (queueOptions proxies) = Nat.max (length proxies) 1 ∧
  intervalCap (queueOptions proxies) = Nat.max (length proxies) 1 ∧
  interval (queueOptions proxies) = 30000%Z.
Proof.
  unfold queueOptions, concurrencyOf; simpl.
  destruct (length proxies) as [|n] eqn:E; simpl; repeat split; lia.
Qed.

Example queue_no_proxy : queueOptions [] = mkQueueOptions 1 30000 1.
Proof. reflexivity. Qed.

Example queue_three_proxies :
  queueOptions ["p1"; "p2"; "p3"] = mkQueueOptions 3 30000 3.
Proof. reflexivity. Qed.

(** ** The id of an account *)

(** C9: [replace] removes the first [.json] of the path, which is not its
    extension when a directory or the stem holds one too: the file
    [farms/team.json/a1.json] gets the id [farms/team/a1.json]. *)
Theorem accountId_removes_first_occurrence :
  accountId "farms/team.json/a1.json" = "farms/team/a1.json" ∧
  accountId "farms/a1.json.bak.json" = "farms/a1.bak.json" ∧
  accountId "farms/a1.json" = "farms/a1".
Proof. repeat split; reflexivity. Qed.

(** The primary file cleanAccount looks for, [account.id + '.json'], is then
    not the file the account was read from. *)
Example accountId_breaks_cleanAccount :
  accountId "farms/team.json/a1.json" +:+ ".json" ≠ "farms/team.json/a1.json".
Proof. discriminate. Qed.

(** Read from [farms/team.json/a1.json], the account is cleaned from
    [farms/team/a1.json.json]: renameSync throws, the chain is rejected and
    the file stays where it was. *)
Example accountId_breaks_the_chain :
  let disk : gmap string Demo.node :=
    <["farms/team.json/a1.json" := Demo.File Demo.credentialsText]> ∅ in
  let loaded := readAccounts (host := Demo.host) ["farms/team.json/a1.json"]
                  (mkWorld (host := Demo.host) disk []) in
  let a := mkAccount "farms/team/a1.json" Active (Str "user") (Str "pass") Null in
  let r := handlers (host := Demo.host) getDefaultConfig 0
             (taskOf 0 (λ _, Demo.down))
             (mkTask a (mkBot None None None) (mkWorld (host := Demo.host) disk [])) in
  loaded.1 = Ok [a]
  ∧ r.1 = Throw (Error "ENOENT" None)
  ∧ fs (env r.2) !! "farms/team.json/a1.json" = Some (Demo.File Demo.credentialsText).
Proof. vm_compute. repeat split. Qed.

Lemma prefix_json_app (stem : string) :
  stem ≠ "" →
  String.prefix ".json" stem = false →
  String.prefix ".json" (stem +:+ ".json") = false.
Proof.
  intros Hne Hp.
  destruct stem as [|c1 [|c2 [|c3 [|c4 [|c5 rest]]]]]; [congruence|..];
    cbv beta iota delta [String.append String.prefix] in *;
    fold String.append String.prefix in *;
    repeat match goal with
           | |- context [ascii_dec ?a ?b] =>
               destruct (ascii_dec a b); try subst; try discriminate
           | H : context [ascii_dec ?a ?b] |- _ =>
               destruct (ascii_dec a b); try subst; try discriminate
           end;
    try congruence.
  destruct rest; discriminate Hp.
Qed.

(** X15: the id is the path without its extension when [.json] occurs
    nowhere else in the path; cleanAccount then finds the credential file
    again at [account.id + '.json']. *)
Lemma accountId_strips_extension (stem : string) :
  JS.includes stem ".json" = false →
  accountId (stem +:+ ".json") = stem.
Proof.
  unfold accountId.
  induction stem as [|c stem IH]; intros Hi; [reflexivity|].
  cbn [JS.includes] in Hi. apply orb_false_elim in Hi as [Hp Hi].
  change (String c stem +:+ ".json") with (String c (stem +:+ ".json")).
  cbn [JS.replace].
  change (String c (stem +:+ ".json")) with (String c stem +:+ ".json").
  rewrite prefix_json_app by (assumption || discriminate).
  f_equal. apply IH. assumption.
Qed.

(** ** The classifier *)

Lemma classify_contract (bans : list string) (level : option jsnumber) :
  classify bans level = classifierContract false bans level.
Proof.
  unfold classify, classifierContract.
  destruct bans as [|b bans]; simpl.
  - destruct level as [[|[| |]]|]; reflexivity.
  - reflexivity.
Qed.

Section ClassifierFacts.
Context `{host : Host}.

(** What the [then] and [catch] handlers do to a task whose bot holds a
    list of bans. *)
Lemma classifier_settled_run (i : nat) (outcome : result unit) (a : Account)
    (p : option string) (b : list string) (l : option jsnumber) (w : world) :
  classifier i (settled outcome) (mkTask a (mkBot p (Some b) l) w) =
  match outcome with
  | Ok _ =>
      (Ok tt, mkTask (setStatus a (classify b l)) (mkBot p (Some b) l)
                (mkWorld (fs w) ((log w ++ [EvStatus i (classify b l)])
                                 ++ [EvLogInfo i (classify b l)])))
  | Throw e =>
      (Ok tt, mkTask (setStatus a Unknown) (mkBot p (Some b) l)
                (mkWorld (fs w) ((log w ++ [EvStatus i Unknown])
                                 ++ [EvLogError i (message_of e)])))
  end.
Proof. destruct outcome as [[]|e]; reflexivity. Qed.

End ClassifierFacts.

(** ** Counting the events of a run *)

Lemma count_app (f : event → bool) (l1 l2 : list event) :
  count f (l1 ++ l2) = (count f l1 + count f l2)%nat.
Proof. unfold count. rewrite List.filter_app, length_app. reflexivity. Qed.

Lemma count_cons (f : event → bool) (e : event) (l : list event) :
  count f (e :: l) = ((if f e then 1 else 0) + count f l)%nat.
Proof. unfold count; simpl. destruct (f e); reflexivity. Qed.

Lemma count_nil (f : event → bool) : count f [] = 0%nat.
Proof. reflexivity. Qed.

Section Silent.
Context `{host : Host}.
Variable f : event → bool.

Lemma silentW_same {A} (m : M world A) :
  (∀ w, log (m w).2 = log w) → silentW f m.
Proof.
  intros Hm w. exists []. rewrite Hm, app_nil_r. split; reflexivity.
Qed.

Lemma silentW_ret {A} (a : A) : silentW f (ret a).
Proof. apply silentW_same. reflexivity. Qed.

Lemma silentW_throw {A} (e : error) : silentW f (throw (A := A) e).
Proof. apply silentW_same. reflexivity. Qed.

Lemma silentW_gets {A} (g : world → A) : silentW f (gets g).
Proof. apply silentW_same. reflexivity. Qed.

Lemma silentW_emit (e : event) : f e = false → silentW f (emit e).
Proof.
  intros He w. exists [e]. split; [reflexivity|].
  rewrite count_cons, He. reflexivity.
Qed.

Lemma silentW_bind {A B} (m : M world A) (k : A → M world B) :
  silentW f m → (∀ a, silentW f (k a)) → silentW f (bind m k).
Proof.
  intros Hm Hk w. unfold bind.
  destruct (Hm w) as (n1 & E1 & C1).
  destruct (m w) as [[a|e] w1]; simpl in *.
  - destruct (Hk a w1) as (n2 & E2 & C2).
    exists (n1 ++ n2). rewrite E2, E1, app_assoc, count_app, C1, C2.
    split; reflexivity.
  - exists n1. split; assumption.
Qed.

Lemma silentW_try_catch {A} (m : M world A) (h : error → M world A) :
  silentW f m → (∀ e, silentW f (h e)) → silentW f (try_catch m h).
Proof.
  intros Hm Hh w. unfold try_catch.
  destruct (Hm w) as (n1 & E1 & C1).
  destruct (m w) as [[a|e] w1]; simpl in *.
  - exists n1. split; assumption.
  - destruct (Hh e w1) as (n2 & E2 & C2).
    exists (n1 ++ n2). rewrite E2, E1, app_assoc, count_app, C1, C2.
    split; reflexivity.
Qed.

Lemma silentT_same {A} (m : M task A) :
  (∀ t, account (m t).2 = account t ∧ log (env (m t).2) = log (env t)) →
  silentT f m.
Proof.
  intros Hm t. destruct (Hm t) as [Ha Hl]. split; [assumption|].
  exists []. rewrite Hl, app_nil_r. split; reflexivity.
Qed.

Lemma silentT_ret {A} (a : A) : silentT f (ret a).
Proof. apply silentT_same. intros; split; reflexivity. Qed.

Lemma silentT_throw {A} (e : error) : silentT f (throw (A := A) e).
Proof. apply silentT_same. intros; split; reflexivity. Qed.

Lemma silentT_gets {A} (g : task → A) : silentT f (gets g).
Proof. apply silentT_same. intros; split; reflexivity. Qed.

Lemma silentT_lift {A} (m : M world A) : silentW f m → silentT f (lift m).
Proof.
  intros Hm t. unfold lift. destruct (Hm (env t)) as (n & E & C).
  destruct (m (env t)) as [r w]; simpl in *.
  split; [reflexivity|]. exists n. split; assumption.
Qed.

Lemma silentT_bind {A B} (m : M task A) (k : A → M task B) :
  silentT f m → (∀ a, silentT f (k a)) → silentT f (bind m k).
Proof.
  intros Hm Hk t. unfold bind.
  destruct (Hm t) as (A1 & n1 & E1 & C1).
  destruct (m t) as [[a|e] t1]; simpl in *.
  - destruct (Hk a t1) as (A2 & n2 & E2 & C2).
    split; [congruence|].
    exists (n1 ++ n2). rewrite E2, E1, app_assoc, count_app, C1, C2.
    split; reflexivity.
  - split; [assumption|]. exists n1. split; assumption.
Qed.

Lemma silentT_try_catch {A} (m : M task A) (h : error → M task A) :
  silentT f m → (∀ e, silentT f (h e)) → silentT f (try_catch m h).
Proof.
  intros Hm Hh t. unfold try_catch.
  destruct (Hm t) as (A1 & n1 & E1 & C1).
  destruct (m t) as [[a|e] t1]; simpl in *.
  - split; [assumption|]. exists n1. split; assumption.
  - destruct (Hh e t1) as (A2 & n2 & E2 & C2).
    split; [congruence|].
    exists (n1 ++ n2). rewrite E2, E1, app_assoc, count_app, C1, C2.
    split; reflexivity.
Qed.

End Silent.

Create HintDb silent.
#[global] Hint Resolve silentW_ret silentW_throw silentW_gets silentW_emit
  silentT_ret silentT_throw silentT_gets silentT_lift : silent.

Section SilentProgram.
Context `{host : Host}.
Variable f : event → bool.
Hypothesis f_fs : ∀ e, isFs e = true → f e = false.

Lemma silentW_existsSync (path : string) : silentW f (fs_existsSync path).
Proof.
  apply silentW_bind; [apply silentW_emit, f_fs; reflexivity|].
  intros _. apply silentW_gets.
Qed.

Lemma silentW_mkdirSync (path : string) : silentW f (fs_mkdirSync path).
Proof.
  apply silentW_bind; [apply silentW_emit, f_fs; reflexivity|].
  intros _. apply silentW_same. intros w.
  destruct (mkdirSync path (fs w)); reflexivity.
Qed.

Lemma silentW_renameSync (oldPath newPath : string) :
  silentW f (fs_renameSync oldPath newPath).
Proof.
  apply silentW_bind; [apply silentW_emit, f_fs; reflexivity|].
  intros _. apply silentW_same. intros w.
  destruct (renameSync oldPath newPath (fs w)); reflexivity.
Qed.

Lemma silentW_moveIfExists (directoryPath path : string) :
  silentW f (moveIfExists directoryPath path).
Proof.
  apply silentW_bind; [apply silentW_existsSync|].
  intros [|]; [apply silentW_renameSync|apply silentW_ret].
Qed.

Lemma silentW_cleanAccount (a : Account) : silentW f (cleanAccount a).
Proof.
  unfold cleanAccount.
  apply silentW_bind; [apply silentW_existsSync|intros found].
  apply silentW_bind;
    [destruct found; [apply silentW_ret|apply silentW_mkdirSync]|intros _].
  apply silentW_bind; [apply silentW_renameSync|intros _].
  repeat (apply silentW_bind; [apply silentW_moveIfExists|intros _]).
  apply silentW_moveIfExists.
Qed.

Lemma silentT_member (v : value) (k : string) : silentT f (member v k).
Proof. destruct v; simpl; auto with silent. Qed.

Lemma silentT_dispatch (config : value) (i : nat) :
  f (EvClean i) = false → silentT f (dispatch config i).
Proof.
  intros Hc. unfold dispatch.
  apply silentT_bind; [apply silentT_gets|intros a].
  destruct (decide (status a = Active)); [apply silentT_ret|].
  apply silentT_bind.
  { destruct (decide (status a = Banned)); [|apply silentT_ret].
    apply silentT_bind; [apply silentT_member|intros c; apply silentT_ret]. }
  intros [|]; [apply silentT_ret|].
  apply silentT_bind.
  { destruct (decide (status a = Limited)); [|apply silentT_ret].
    apply silentT_bind; [apply silentT_member|intros c; apply silentT_ret]. }
  intros [|]; [apply silentT_ret|].
  apply silentT_lift, silentW_bind; [apply silentW_emit, Hc|intros _].
  apply silentW_cleanAccount.
Qed.

(** The [finally] handler stops the bot once, and what follows is
    silent. *)
Lemma onFinally_run (config : value) (i : nat) (t : task) :
  f (EvClean i) = false →
  account (onFinally config i t).2 = account t ∧
  ∃ new, log (env (onFinally config i t).2) = (log (env t) ++ [EvStop i]) ++ new
         ∧ count f new = 0%nat.
Proof.
  intros Hc.
  pose proof (silentT_dispatch config i Hc
                (mkTask (account t) (bot t)
                        (mkWorld (fs (env t)) (log (env t) ++ [EvStop i]))))
    as (Ha & new & Hl & Hn).
  unfold onFinally, bind, stop, lift, emit, modify; simpl in *.
  destruct (dispatch config i _) as [[u|e] t']; simpl in *;
    (split; [assumption|exists new; split; assumption]).
Qed.

End SilentProgram.

(** ** What a task does *)

Section TaskFacts.
Context `{host : Host}.

(** One call of [bot.start()]: its outcome, its events, and the signals
    of a call that succeeds. *)
Lemma start_run (i : nat) (att : attempt) (t : task) :
  ∃ b : Bot,
    start i att t =
      (match startFailure (account t) att with
       | Some e => Throw (Error "Failed to start" (Some e))
       | None => Ok tt
       end,
       mkTask (account t) b
         (mkWorld (fs (env t))
            (log (env t) ++ EvStart i ::
               match startFailure (account t) att with
               | Some _ => [EvStop i]
               | None => []
               end)))
    ∧ (startFailure (account t) att = None →
       is_Some (bans b) ∧ is_Some (level b)).
Proof.
  destruct t as [a b w], att as [g s c sm fl].
  unfold start, startFailure, retrieveToken, retrieveCookies, retriveBansInfo,
    retrieveProfileLevel, stop, setBans, setLevel, lift, emit, bind, try_catch,
    modify, gets, ret, throw; simpl.
  destruct (truthy (secret a)), g as [eg|], s as [es|], c as [ec|],
    sm as [page|esm], fl as [text|efl]; simpl;
    try destruct (String.eqb text ""); simpl;
    rewrite <- ?app_assoc; simpl;
    eexists; (split; [reflexivity|]); simpl;
    try discriminate; intros _; split; eexists; reflexivity.
Qed.

(** [startFailure] is what [bot.start()] throws. *)
Lemma start_outcome (i : nat) (att : attempt) (t : task) :
  (start i att t).1 =
    match startFailure (account t) att with
    | Some e => Throw (Error "Failed to start" (Some e))
    | None => Ok tt
    end.
Proof. destruct (start_run i att t) as (b & E & _). rewrite E. reflexivity. Qed.

(** The retried task: its outcome, its events, and the signals of a task
    that succeeds.  The account and the files are as they were. *)
Lemma retry_run (i : nat) (o : RetryOptions) (service : nat → attempt)
    (left n : nat) (t : task) :
  ∃ b : Bot,
    pRetryFrom (λ ms, lift (emit (EvWait i ms))) o left n
               (λ n, start i (service n)) t =
      (retryOutcome (account t) service left n,
       mkTask (account t) b
         (mkWorld (fs (env t))
            (log (env t) ++ retryTrace i (account t) o service left n)))
    ∧ (retryOutcome (account t) service left n = Ok tt →
       is_Some (bans b) ∧ is_Some (level b)).
Proof.
  revert n t. induction left as [|left IH]; intros n t; simpl;
    unfold try_catch;
    destruct (start_run i (service n) t) as (b & E & Hb); rewrite E;
    destruct (startFailure (account t) (service n)) as [e|] eqn:F.
  - exists b. split; [reflexivity|discriminate].
  - exists b. split; [reflexivity|intros _; apply Hb; reflexivity].
  - unfold bind at 1, lift at 1, emit, modify; simpl.
    destruct (IH (S n)
                (mkTask (account t) b
                   (mkWorld (fs (env t))
                      ((log (env t) ++ [EvStart i; EvStop i])
                         ++ [EvWait i (retryDelay o n)]))))
      as (b' & E' & Hb').
    simpl in E', Hb'. unfold emit, modify in E'. rewrite E'.
    exists b'. split; [|exact Hb'].
    rewrite <- !app_assoc. reflexivity.
  - exists b. split; [reflexivity|intros _; apply Hb; reflexivity].
Qed.

Lemma taskOf_run (i : nat) (service : nat → attempt) (t : task) :
  ∃ b : Bot,
    taskOf i service t =
      (retryOutcome (account t) service 3 0,
       mkTask (account t) b
         (mkWorld (fs (env t))
            (log (env t) ++ retryTrace i (account t) retryOptions service 3 0)))
    ∧ (retryOutcome (account t) service 3 0 = Ok tt →
       is_Some (bans b) ∧ is_Some (level b)).
Proof. apply retry_run. Qed.

End TaskFacts.

(** ** What the handlers do *)

Lemma count_retryTrace (f : event → bool) (i : nat) (a : Account)
    (o : RetryOptions) (service : nat → attempt) (left n : nat) :
  f (EvStart i) = false → f (EvStop i) = false →
  (∀ ms, f (EvWait i ms) = false) →
  count f (retryTrace i a o service left n) = 0%nat.
Proof.
  intros H1 H2 H3. revert n.
  induction left as [|left IH]; intros n; simpl;
    destruct (startFailure a (service n));
    rewrite ?count_cons, ?H1, ?H2, ?H3, ?IH; reflexivity.
Qed.

Lemma count_stops_retryTrace (i : nat) (a : Account) (o : RetryOptions)
    (service : nat → attempt) (left n : nat) :
  count (isStop i) (retryTrace i a o service left n) = failures a service left n.
Proof.
  revert n. induction left as [|left IH]; intros n; simpl;
    destruct (startFailure a (service n));
    rewrite ?count_cons; simpl; rewrite ?Nat.eqb_refl, ?IH; reflexivity.
Qed.

Section HandlerFacts.
Context `{host : Host}.

Lemma classifier_settled (i : nat) (p : M task unit) (t : task) :
  classifier i p t = classifier i (settled (p t).1) (p t).2.
Proof.
  unfold classifier, try_catch, bind, settled.
  destruct (p t) as [[u|e] t']; reflexivity.
Qed.

Lemma classifier_run (i : nat) (outcome : result unit) (t : task) :
  classifier i (settled outcome) t =
    (Ok tt,
     mkTask (setStatus (account t) (assigned outcome (bot t))) (bot t)
       (mkWorld (fs (env t))
          ((log (env t) ++ [EvStatus i (assigned outcome (bot t))])
             ++ [logged i outcome (bot t)]))).
Proof.
  destruct t as [a [p [l|] lv] w], outcome as [[]|e]; reflexivity.
Qed.

(** One chain, from the submission of the task to the end of its
    [finally] handler: the account, and the log, where [f] counts neither
    the calls of [fs] nor that of cleanAccount. *)
Lemma handlers_run (f : event → bool) (config : value) (i : nat)
    (service : nat → attempt) (t : task) :
  (∀ e, isFs e = true → f e = false) → f (EvClean i) = false →
  ∃ (b : Bot) (new : list event),
    let outcome := retryOutcome (account t) service 3 0 in
    account (handlers config i (taskOf i service) t).2
      = setStatus (account t) (assigned outcome b)
    ∧ log (env (handlers config i (taskOf i service) t).2)
      = log (env t)
          ++ retryTrace i (account t) retryOptions service 3 0
          ++ [EvStatus i (assigned outcome b); logged i outcome b; EvStop i]
          ++ new
    ∧ count f new = 0%nat
    ∧ (outcome = Ok tt → is_Some (bans b) ∧ is_Some (level b)).
Proof.
  intros Hfs Hc.
  destruct (taskOf_run i service t) as (b & E & Hb).
  exists b.
  unfold handlers, finally.
  rewrite classifier_settled, E; simpl. rewrite classifier_run; simpl.
  match goal with
  | |- context [onFinally config i ?t'] =>
      destruct (onFinally_run f Hfs config i t' Hc) as (Ha & new & Hl & Hn);
      destruct (onFinally config i t') as [[u|e] t'']
  end; simpl in *; exists new;
    (split; [exact Ha|split; [|split; [exact Hn|exact Hb]]]);
    rewrite Hl, <- !app_assoc; reflexivity.
Qed.

End HandlerFacts.

(** C2: on a settled task the handlers assign Unknown when the task failed,
    whatever the bot holds (a task that failed at the login has left no
    list of bans); otherwise Banned when there is a ban, otherwise Limited
    when the level is 0, otherwise Active; a ban wins over level 0.  A
    task that succeeded has left a list of bans and a level in its bot, so
    that the second part covers every task that succeeded. *)
Theorem classifier_assigns `{host : Host} (i : nat) (outcome : result unit)
    (e : error) (a : Account) (held : Bot) (p : option string) (b : list string)
    (l : option jsnumber) (w : world) (service : nat → attempt) (t : task) :
  status (account (classifier i (settled (Throw e)) (mkTask a held w)).2) = Unknown
  ∧ status (account (classifier i (settled outcome)
                       (mkTask a (mkBot p (Some b) l) w)).2)
    = classifierContract (failed outcome) b l
  ∧ match (taskOf i service t).1 with
    | Ok _ => is_Some (bans (bot (taskOf i service t).2))
              ∧ is_Some (level (bot (taskOf i service t).2))
    | Throw _ => True
    end
  ∧ status (account (classifier i (settled (Ok tt))
                       (mkTask a (mkBot p (Some ["x"]) (Some (Int 0))) w)).2)
    = Banned
  ∧ status (account (classifier i (settled (Ok tt))
                       (mkTask a (mkBot p (Some []) (Some (Int 0))) w)).2)
    = Limited
  ∧ status (account (classifier i (settled (Ok tt))
                       (mkTask a (mkBot p (Some []) (Some (Int 5))) w)).2)
    = Active.
Proof.
  rewrite !classifier_run; cbn [snd account status setStatus bot].
  split; [reflexivity|].
  split.
  { destruct outcome as [[]|e']; simpl; [apply classify_contract|reflexivity]. }
  split; [|repeat split].
  destruct (taskOf_run i service t) as (b' & E & Hb). rewrite E; cbn [fst snd bot].
  destruct (retryOutcome (account t) service 3 0) as [[]|e']; [|exact I].
  apply Hb. reflexivity.
Qed.

Example failed_login_is_unknown :
  let r := classifier (host := Demo.host) 0 (taskOf 0 (λ _, Demo.down))
             (mkTask Demo.a1 (mkBot None None None)
                     (mkWorld (host := Demo.host) Demo.disk [])) in
  bans (bot r.2) = None ∧ status (account r.2) = Unknown.
Proof. vm_compute. split; reflexivity. Qed.

(** ** Releasing the bot *)

Lemma isStop_fs (i : nat) (e : event) : isFs e = true → isStop i e = false.
Proof. destruct e; simpl; intros; (reflexivity || discriminate). Qed.

Lemma isStop_logged (i : nat) (outcome : result unit) (b : Bot) :
  isStop i (logged i outcome b) = false.
Proof. destruct outcome as [[]|e], b as [p [l|] lv]; reflexivity. Qed.

(** C4 (as the code has it): over one chain [bot.stop()] is called once by
    the [finally] handler and once more by every call of [bot.start()]
    that failed: one call when the first attempt succeeds, never none. *)
Theorem stop_once_and_after_each_failure `{host : Host} (config : value)
    (i : nat) (service : nat → attempt) (t : task) :
  ∃ new : list event,
    log (env (handlers config i (taskOf i service) t).2) = log (env t) ++ new
    ∧ count (isStop i) new = S (failures (account t) service 3 0).
Proof.
  destruct (handlers_run (isStop i) config i service t (isStop_fs i) eq_refl)
    as (b & new & _ & Hl & Hn & _).
  eexists. split; [exact Hl|].
  rewrite !count_app, count_stops_retryTrace, !count_cons, Hn, isStop_logged.
  generalize (failures (account t) service 3 0); intros k.
  simpl. rewrite Nat.eqb_refl, count_nil. lia.
Qed.

(** C4, as claimed, fails: on a service that is down, [bot.stop()] is
    called five times for the one task. *)
Lemma stop_five_times_when_down :
  count (isStop 0)
    (log (env (handlers (host := Demo.host) getDefaultConfig 0
                 (taskOf 0 (λ _, Demo.down))
                 (mkTask Demo.a1 (mkBot None None None)
                         (mkWorld (host := Demo.host) Demo.disk []))).2))
  = 5%nat.
Proof. vm_compute. reflexivity. Qed.

(** ** The dispatcher *)

(** C1 (as the code has it): the [finally] handler has no guard for
    Unknown; after [bot.stop()] it calls cleanAccount on the account,
    whatever the configuration. *)
Theorem unknown_is_cleaned `{host : Host} (config : value) (i : nat) (t : task) :
  status (account t) = Unknown →
  onFinally config i t
    = (stop i ;;; lift (emit (EvClean i) ;;; cleanAccount (account t))) t
  ∧ ∃ new : list event,
      log (env (onFinally config i t).2)
        = log (env t) ++ [EvStop i; EvClean i] ++ new.
Proof.
  intros Hu.
  assert (E : onFinally config i t
              = (stop i ;;; lift (emit (EvClean i) ;;; cleanAccount (account t))) t).
  { destruct t as [a b w]; simpl in Hu.
    unfold onFinally, dispatch, bind, stop, lift, gets, ret; simpl.
    rewrite Hu; simpl. reflexivity. }
  split; [exact E|].
  rewrite E.
  destruct (silentW_cleanAccount (λ _, false) (λ _ _, eq_refl) (account t)
              (mkWorld (fs (env t)) ((log (env t) ++ [EvStop i]) ++ [EvClean i])))
    as (new & Hl & _).
  exists new.
  unfold bind, stop, lift, emit, modify; simpl in *.
  destruct (cleanAccount (account t) _) as [[u|e] w']; simpl in *;
    rewrite Hl, <- !app_assoc; reflexivity.
Qed.

Lemma unknown_is_cleaned_witness :
  let t := mkTask (setStatus Demo.a1 Unknown) (mkBot None None None)
                  (mkWorld (host := Demo.host) Demo.disk []) in
  ∃ new : list event,
    log (env (onFinally (host := Demo.host) (Obj ∅) 0 t).2)
      = log (env t) ++ [EvStop 0; EvClean 0] ++ new.
Proof.
  intros t.
  exact (proj2 (unknown_is_cleaned (host := Demo.host) (Obj ∅) 0 t eq_refl)).
Defined.

(** C1, as claimed, fails: the account of a task that failed is Unknown,
    cleanAccount is called, and its files are in [cleaned/unknown]. *)
Lemma unknown_files_are_moved :
  let t := (handlers (host := Demo.host) (Obj ∅) 0
              (taskOf 0 (λ _, Demo.down))
              (mkTask Demo.a1 (mkBot None None None)
                      (mkWorld (host := Demo.host) Demo.disk []))).2 in
  status (account t) = Unknown
  ∧ count (isClean 0) (log (env t)) = 1%nat
  ∧ fs (env t) !! "farms/a1.json" = None
  ∧ fs (env t) !! "cleaned/unknown/a1.json" = Some (Demo.File Demo.credentialsText).
Proof. vm_compute. repeat split. Qed.

(** ** One status for every chain that runs *)

Lemma statusWrites_app (i : nat) (l1 l2 : list event) :
  statusWrites i (l1 ++ l2) = statusWrites i l1 ++ statusWrites i l2.
Proof.
  induction l1 as [|e l1 IH]; [reflexivity|].
  destruct e; simpl; try exact IH.
  destruct (Nat.eqb account0 i); simpl; rewrite IH; reflexivity.
Qed.

Lemma statusWrites_silent (i : nat) (l : list event) :
  count isStatusAny l = 0%nat → statusWrites i l = [].
Proof.
  induction l as [|e l IH]; [reflexivity|].
  rewrite count_cons. destruct e; simpl; try exact IH. discriminate.
Qed.

Lemma statusWrites_retryTrace (j i : nat) (a : Account) (o : RetryOptions)
    (service : nat → attempt) (left n : nat) :
  statusWrites j (retryTrace i a o service left n) = [].
Proof.
  apply statusWrites_silent, count_retryTrace; reflexivity.
Qed.

Lemma statusWrites_handlers (j i : nat) (s : AccountStatus)
    (outcome : result unit) (b : Bot) (new : list event) :
  count isStatusAny new = 0%nat →
  statusWrites j (EvStatus i s :: logged i outcome b :: EvStop i :: new)
    = if Nat.eqb i j then [s] else [].
Proof.
  intros Hn.
  destruct outcome as [[]|e], b as [p [bs|] lv]; simpl;
    rewrite (statusWrites_silent j new Hn); reflexivity.
Qed.

Lemma Forall2_seq_impl {A} (P Q : nat → A → Prop) (len start : nat) (l : list A) :
  Forall2 P (seq start len) l →
  (∀ j y, (start ≤ j)%nat → P j y → Q j y) →
  Forall2 Q (seq start len) l.
Proof.
  revert start l. induction len as [|len IH]; intros start l H HPQ; simpl in *.
  - inversion H; constructor.
  - inversion H as [|j y js ys Hj Hjs]; subst. constructor.
    + apply HPQ; [lia|assumption].
    + apply IH; [assumption|]. intros j' y' Hle. apply HPQ. lia.
Qed.

Section BatchFacts.
Context `{host : Host}.

(** One chain: the account comes out of it with the one status written to
    it, changed in nothing else, and no other account is written to. *)
Lemma chain_run (config : value) (i : nat) (service : nat → attempt) (t : task) :
  ∃ (s : AccountStatus) (new : list event),
    account (handlers config i (taskOf i service) t).2 = setStatus (account t) s
    ∧ log (env (handlers config i (taskOf i service) t).2) = log (env t) ++ new
    ∧ ∀ j, statusWrites j new = if Nat.eqb i j then [s] else [].
Proof.
  destruct (handlers_run isStatusAny config i service t)
    as (b & new & Ha & Hl & Hn & _).
  { intros e; destruct e; simpl; intros; (reflexivity || discriminate). }
  { reflexivity. }
  eexists _, _. split; [exact Ha|]. split; [exact Hl|].
  intros j.
  rewrite statusWrites_app, statusWrites_retryTrace.
  apply (statusWrites_handlers j i _ _ b new Hn).
Qed.

(** The chains that run: [ran] of them, the first [ran] of the queue, each
    with one status written; all of them when no chain is rejected. *)
Lemma runChains_run (config : value) (services : nat → nat → attempt)
    (tasks : list (Account * Bot)) :
  ∀ (index : nat) (w : world),
  ∃ (ran : nat) (new : list event),
    (ran ≤ length tasks)%nat
    ∧ log (runChains config services index tasks w).2 = log w ++ new
    ∧ (∀ j, length (statusWrites j new)
            = if (index <=? j)%nat && (j <? index + ran)%nat then 1%nat else 0%nat)
    ∧ match (runChains config services index tasks w).1 with
      | Ok accounts' =>
          ran = length tasks
          ∧ Forall2 (λ j a', statusWrites j new = [status a'])
                    (seq index (length tasks)) accounts'
          ∧ Forall2 (λ task a', a' = setStatus task.1 (status a')) tasks accounts'
      | Throw _ => (0 < ran)%nat
      end.
Proof.
  induction tasks as [|[a b] rest IH]; intros index w; cbn [runChains length].
  - exists 0%nat, []. rewrite app_nil_r. cbn [ret fst snd].
    split; [lia|]. split; [reflexivity|]. split.
    + intros j. simpl.
      destruct (Nat.leb_spec index j), (Nat.ltb_spec j (index + 0)); simpl; lia.
    + repeat split; constructor.
  - destruct (chain_run config index (services index) (mkTask a b w))
      as (s & new1 & Ha & Hl & Hs).
    destruct (handlers config index (taskOf index (services index)) (mkTask a b w))
      as [[u|e] t']; cbn [fst snd account env] in *.
    + destruct (IH (S index) (env t')) as (ran & new2 & Hran & Hl2 & Hlen & Hres).
      assert (Hone : ∀ j, length (statusWrites j (new1 ++ new2))
                = if (index <=? j)%nat && (j <? index + S ran)%nat
                  then 1%nat else 0%nat).
      { intros j. rewrite statusWrites_app, length_app, Hs, Hlen.
        destruct (Nat.eqb_spec index j), (Nat.leb_spec (S index) j),
          (Nat.ltb_spec j (S index + ran)), (Nat.leb_spec index j),
          (Nat.ltb_spec j (index + S ran)); simpl; lia. }
      destruct (runChains config services (S index) rest (env t')) as [[rest'|e] w2];
        cbn [fst snd] in *.
      * destruct Hres as (-> & Hall & Hacc).
        exists (S (length rest)), (new1 ++ new2).
        split; [lia|]. split; [rewrite Hl2, Hl, app_assoc; reflexivity|].
        split; [exact Hone|].
        split; [reflexivity|]. split.
        -- cbn [seq]. constructor.
           ++ rewrite statusWrites_app, Hs, Nat.eqb_refl.
              specialize (Hlen index).
              destruct (Nat.leb_spec (S index) index); [lia|].
              destruct (statusWrites index new2); [|discriminate Hlen].
              rewrite Ha. reflexivity.
           ++ apply (Forall2_seq_impl _ _ _ _ _ Hall). intros j a' Hj Ha'.
              rewrite statusWrites_app, Hs, Ha'.
              destruct (Nat.eqb_spec index j); [lia|reflexivity].
        -- constructor; [rewrite Ha; reflexivity|exact Hacc].
      * exists (S ran), (new1 ++ new2).
        split; [lia|]. split; [rewrite Hl2, Hl, app_assoc; reflexivity|].
        split; [exact Hone|lia].
    + exists 1%nat, new1.
      split; [lia|]. split; [exact Hl|]. split; [|lia].
      intros j. rewrite Hs.
      destruct (Nat.eqb_spec index j), (Nat.leb_spec index j),
        (Nat.ltb_spec j (index + 1)); simpl; lia.
Qed.

End BatchFacts.



Example two_accounts_two_statuses :
  let r := runChains (host := Demo.host) getDefaultConfig
             (λ i _, if Nat.eqb i 0 then Demo.down else Demo.up) 0
             [(Demo.a1, mkBot None None None);
              (mkAccount "farms/a2" Active (Str "u2") (Str "p2") Null,
               mkBot None None None)]
             (mkWorld (host := Demo.host) Demo.disk []) in
  List.map status (match r.1 with Ok l => l | Throw _ => [] end) = [Unknown; Active]
  ∧ statusWrites 0 (log r.2) = [Unknown]
  ∧ statusWrites 1 (log r.2) = [Active].
Proof. vm_compute. repeat split. Qed.

(** A proxy that is no URL: [new Bot] throws for the second account, and
    the first, whose task the queue had started, gets no status. *)
Example bad_proxy_ends_the_run :
  let disk := <["farms/a2.json" := Demo.File Demo.credentialsText]> Demo.disk in
  let r := main (host := Demo.host) (agents := Demo.agents)
             ["farms/a1.json"; "farms/a1.maFile"; "farms/a2.json"]
             ["http://p1"; "p2"] (λ _ _, Demo.up)
             (mkWorld (host := Demo.host) disk []) in
  r.1 = Throw (Error "Invalid URL" None)
  ∧ statusWrites 0 (log r.2) = []
  ∧ statusWrites 1 (log r.2) = []
  ∧ count (isStart 0) (log r.2) = 1%nat.
Proof. vm_compute. repeat split. Qed.

(** ** The retries *)

Lemma retryDelay_main (k : nat) : retryDelay retryOptions k = 30000%Z.
Proof.
  unfold retryDelay, retryOptions; simpl.
  assert (0 < 2 ^ Z.of_nat k)%Z by (apply Z.pow_pos_nonneg; lia).
  lia.
Qed.

Lemma failures_le (a : Account) (service : nat → attempt) (left n : nat) :
  (failures a service left n ≤ S left)%nat.
Proof.
  revert n. induction left as [|left IH]; intros n; simpl;
    destruct (startFailure a (service n)); try lia.
  specialize (IH (S n)). lia.
Qed.

Lemma count_starts_retryTrace (i : nat) (a : Account) (o : RetryOptions)
    (service : nat → attempt) (left n : nat) :
  count (isStart i) (retryTrace i a o service left n)
    = Nat.min (S left) (S (failures a service left n)).
Proof.
  revert n. induction left as [|left IH]; intros n; simpl;
    destruct (startFailure a (service n));
    rewrite ?count_cons; simpl; rewrite ?Nat.eqb_refl, ?IH, ?count_nil; lia.
Qed.

Lemma count_waits_retryTrace (i : nat) (a : Account) (o : RetryOptions)
    (service : nat → attempt) (left n : nat) :
  count (isWait i) (retryTrace i a o service left n)
    = Nat.min left (failures a service left n).
Proof.
  revert n. induction left as [|left IH]; intros n; simpl;
    destruct (startFailure a (service n));
    rewrite ?count_cons; simpl; rewrite ?Nat.eqb_refl, ?IH, ?count_nil; lia.
Qed.

Lemma waits_retryTrace (i : nat) (a : Account) (service : nat → attempt)
    (left n : nat) :
  Forall waits30s (retryTrace i a retryOptions service left n).
Proof.
  revert n. induction left as [|left IH]; intros n; simpl;
    destruct (startFailure a (service n)); repeat constructor.
  - apply retryDelay_main.
  - apply IH.
Qed.

(** The retried task fails when every attempt did, with what the last
    attempt caught. *)
Lemma retryOutcome_last (a : Account) (service : nat → attempt) (left n : nat) :
  retryOutcome a service left n =
    if Nat.eqb (failures a service left n) (S left)
    then match startFailure a (service (n + left)%nat) with
         | Some e => Throw (Error "Failed to start" (Some e))
         | None => Ok tt
         end
    else Ok tt.
Proof.
  revert n. induction left as [|left IH]; intros n; simpl.
  - rewrite Nat.add_0_r. destruct (startFailure a (service n)); reflexivity.
  - destruct (startFailure a (service n)); [|reflexivity].
    rewrite IH. replace (S n + left)%nat with (n + S left)%nat by lia.
    reflexivity.
Qed.

Lemma schedule_retryTrace (i : nat) (a : Account) (service : nat → attempt)
    (left n : nat) :
  List.filter (λ e, isStart i e || isWait i e)
              (retryTrace i a retryOptions service left n)
    = schedule i (Nat.min (S left) (S (failures a service left n))).
Proof.
  revert n. induction left as [|left IH]; intros n; cbn [retryTrace failures];
    destruct (startFailure a (service n)); cbn [List.filter isStart isWait orb];
    rewrite ?Nat.eqb_refl; cbn [orb]; try reflexivity.
  rewrite IH, retryDelay_main.
  replace (Nat.min (S (S left)) (S (S (failures a service left (S n)))))
    with (S (Nat.min (S left) (S (failures a service left (S n))))) by lia.
  cbn [schedule].
  destruct (Nat.min (S left) (S (failures a service left (S n)))) eqn:E; [lia|].
  reflexivity.
Qed.

(** C6: the task calls [bot.start()] again after each failure, four times
    at most; its calls and its waits come in turn, a wait of 30 seconds
    between a call that failed and the next call, and none before the
    first call or after the last; when the fourth call fails too, the task
    fails with what that call threw. *)
Theorem retries_three_times_every_30s `{host : Host} (i : nat)
    (service : nat → attempt) (t : task) :
  ∃ new : list event,
    log (env (taskOf i service t).2) = log (env t) ++ new
    ∧ count (isStart i) new = Nat.min 4 (S (failures (account t) service 3 0))
    ∧ count (isWait i) new = (count (isStart i) new - 1)%nat
    ∧ Forall waits30s new
    ∧ List.filter (λ e, isStart i e || isWait i e) new
        = schedule i (count (isStart i) new)
    ∧ (taskOf i service t).1 =
        if Nat.eqb (failures (account t) service 3 0) 4
        then (start i (service 3) t).1
        else Ok tt.
Proof.
  destruct (taskOf_run i service t) as (b & E & _).
  exists (retryTrace i (account t) retryOptions service 3 0).
  rewrite E; cbn [fst snd env log].
  rewrite schedule_retryTrace, count_starts_retryTrace, count_waits_retryTrace.
  pose proof (failures_le (account t) service 3 0).
  repeat split; try lia.
  - apply waits_retryTrace.
  - rewrite retryOutcome_last.
    destruct (start_run i (service 3) t) as (b3 & E3 & _). rewrite E3.
    reflexivity.
Qed.

Example schedule_of_four :
  schedule 0 4 = [EvStart 0; EvWait 0 30000; EvStart 0; EvWait 0 30000;
                  EvStart 0; EvWait 0 30000; EvStart 0]
  ∧ schedule 0 1 = [EvStart 0].
Proof. split; reflexivity. Qed.

Example retries_when_down :
  let r := taskOf (host := Demo.host) 0 (λ _, Demo.down)
             (mkTask Demo.a1 (mkBot None None None)
                     (mkWorld (host := Demo.host) Demo.disk [])) in
  r.1 = Throw (Error "Failed to start"
                 (Some (Error "Failed to retrieve token"
                          (Some (Error "Session timed out" None)))))
  ∧ log (env r.2) =
      [EvStart 0; EvStop 0; EvWait 0 30000;
       EvStart 0; EvStop 0; EvWait 0 30000;
       EvStart 0; EvStop 0; EvWait 0 30000;
       EvStart 0; EvStop 0].
Proof. vm_compute. split; reflexivity. Qed.

Example retries_until_up :
  let r := taskOf (host := Demo.host) 0
             (λ n, if Nat.eqb n 0 then Demo.down else Demo.up)
             (mkTask Demo.a1 (mkBot None None None)
                     (mkWorld (host := Demo.host) Demo.disk [])) in
  r.1 = Ok tt
  ∧ log (env r.2) = [EvStart 0; EvStop 0; EvWait 0 30000; EvStart 0].
Proof. vm_compute. split; reflexivity. Qed.

(** ** The loader *)

(** C10: the three blocks of readAccounts are this lookup over [.db],
    [.mafile], [.maFile]: same secret, same failures, same calls of [fs]
    in the same order. *)
Theorem secret_is_first_sidecar `{host : Host} (i : string) (s : AccountStatus)
    (u p : value) (w : world) :
  readSecret (mkAccount i s u p Null) w
    = (v <- firstSecret i sidecars ;; ret (mkAccount i s u p v)) w.
Proof.
  unfold readSecret, readDb, readMafile, sidecars, firstSecret, setSecret,
    fs_existsSync, fs_readFileSync, parse, emit, bind, ret, gets, modify.
  repeat (simpl;
          match goal with
          | H : truthy ?x = _ |- context [truthy ?x] => rewrite H
          | |- context [existsSync ?f ?x] => destruct (existsSync f x)
          | |- context [readFileSync ?f ?x] => destruct (readFileSync f x)
          | |- context [JSON_parse ?x] => destruct (JSON_parse x)
          | |- context [truthy ?x] => destruct (truthy x) eqn:?
          end);
    reflexivity.
Qed.

(** A candidate that yields a secret ends the lookup: nothing is asked of
    [fs] about the later ones. *)
Lemma firstSecret_found `{host : Host} (i ext text : string)
    (field : value → value) (later : list (string * (value → value)))
    (v : value) (w : world) :
  existsSync (fs w) (i +:+ ext) = true →
  readFileSync (fs w) (i +:+ ext) = Ok text →
  JSON_parse text = Ok v →
  truthy (field v) = true →
  firstSecret i ((ext, field) :: later) w
    = (Ok (field v),
       mkWorld (fs w) ((log w ++ [EvExists (i +:+ ext)]) ++ [EvRead (i +:+ ext)])).
Proof.
  intros He Hr Hp Ht.
  unfold firstSecret, fs_existsSync, fs_readFileSync, parse, emit, bind, ret,
    gets, modify; simpl.
  rewrite He; simpl. rewrite Hr; simpl. rewrite Hp, Ht. reflexivity.
Qed.

Example loads_a1 :
  readAccounts (host := Demo.host)
    ["farms/a1.json"; "farms/a1.maFile"; "farms/notes.txt"]
    (mkWorld (host := Demo.host) Demo.disk [])
  = (Ok [Demo.a1],
     mkWorld (host := Demo.host) Demo.disk
       [EvRead "farms/a1.json"; EvExists "farms/a1.db"; EvExists "farms/a1.mafile";
        EvExists "farms/a1.maFile"; EvRead "farms/a1.maFile"]).
Proof. vm_compute. reflexivity. Qed.

(** With a [.mafile] that holds a secret the [.maFile] is not looked for. *)
Example mafile_before_maFile :
  readAccounts (host := Demo.host) ["farms/a1.json"]
    (mkWorld (host := Demo.host)
       (<["farms/a1.mafile" := Demo.File Demo.mafileText]> Demo.disk) [])
  = (Ok [Demo.a1],
     mkWorld (host := Demo.host)
       (<["farms/a1.mafile" := Demo.File Demo.mafileText]> Demo.disk)
       [EvRead "farms/a1.json"; EvExists "farms/a1.db"; EvExists "farms/a1.mafile";
        EvRead "farms/a1.mafile"]).
Proof. vm_compute. reflexivity. Qed.

Section Readers.
Context `{host : Host}.

Lemma reader_ret {A} (a : A) : reader (ret a).
Proof. intros w; split; [reflexivity|intros w' _; reflexivity]. Qed.

Lemma reader_bind {A B} (m : M world A) (k : A → M world B) :
  reader m → (∀ a, reader (k a)) → reader (bind m k).
Proof.
  intros Hm Hk w. unfold bind.
  destruct (Hm w) as [F1 R1].
  split.
  - destruct (m w) as [[a|e] w1]; simpl in *; [|assumption].
    destruct (Hk a w1) as [F2 _]. congruence.
  - intros w' Hw'.
    specialize (R1 w' Hw'). destruct (Hm w') as [F1' _].
    destruct (m w) as [[a|e] w1], (m w') as [[a'|e'] w1'];
      simpl in *; try congruence.
    injection R1 as ->. apply (Hk a w1). congruence.
Qed.

Lemma reader_existsSync (path : string) : reader (fs_existsSync path).
Proof.
  intros w; split; [reflexivity|].
  intros w' Hw'. unfold fs_existsSync, bind, emit, modify, gets; simpl.
  rewrite Hw'. reflexivity.
Qed.

Lemma reader_readFileSync (path : string) : reader (fs_readFileSync path).
Proof.
  intros w; split; [reflexivity|].
  intros w' Hw'. unfold fs_readFileSync, bind, emit, modify; simpl.
  rewrite Hw'. reflexivity.
Qed.

Lemma reader_parse (text : string) : reader (parse text).
Proof. intros w; split; [reflexivity|intros w' _; reflexivity]. Qed.

Lemma reader_readDb (a : Account) : reader (readDb a).
Proof.
  apply reader_bind; [apply reader_existsSync|intros [|]; [|apply reader_ret]].
  apply reader_bind; [apply reader_readFileSync|intros text].
  apply reader_bind; [apply reader_parse|intros db].
  destruct (truthy _); apply reader_ret.
Qed.

Lemma reader_readMafile (ext : string) (a : Account) : reader (readMafile ext a).
Proof.
  apply reader_bind.
  { destruct (negb _); [apply reader_existsSync|apply reader_ret]. }
  intros [|]; [|apply reader_ret].
  apply reader_bind; [apply reader_readFileSync|intros text].
  apply reader_bind; [apply reader_parse|intros mafile].
  destruct (truthy _); apply reader_ret.
Qed.

Lemma reader_readAccount (jsonPath : string) : reader (readAccount jsonPath).
Proof.
  apply reader_bind; [apply reader_readFileSync|intros text].
  apply reader_bind; [apply reader_parse|intros json].
  destruct (_ || _); [apply reader_ret|].
  apply reader_bind; [|intros a; apply reader_ret].
  apply reader_bind; [apply reader_readDb|intros a].
  apply reader_bind; [apply reader_readMafile|intros a'].
  apply reader_readMafile.
Qed.

Lemma reader_readAccountsFrom (filePaths : list string) :
  ∀ accounts, reader (readAccountsFrom filePaths accounts).
Proof.
  induction filePaths as [|jsonPath rest IH]; intros accounts; simpl.
  - apply reader_ret.
  - apply reader_bind; [apply reader_readAccount|intros r; apply IH].
Qed.

(** An entry that parses and lacks a credential is one turn of the loop
    that reads the file and goes on. *)
Lemma readAccount_skips (jsonPath text : string) (json : value) (w : world) :
  readFileSync (fs w) jsonPath = Ok text →
  JSON_parse text = Ok json →
  truthy json && truthy (prop json "SteamLogin")
    && truthy (prop json "SteamPassword") = false →
  readAccount jsonPath w
    = (Ok None, mkWorld (fs w) (log w ++ [EvRead jsonPath])).
Proof.
  intros Hr Hp Hc.
  unfold readAccount, fs_readFileSync, parse, bind, emit, modify, ret; simpl.
  rewrite Hr, Hp.
  destruct (truthy json), (truthy (prop json "SteamLogin")),
    (truthy (prop json "SteamPassword")); simpl in *;
    (reflexivity || discriminate).
Qed.

End Readers.

(** C5 (as the code has it): a credential file that parses and lacks a
    credential is skipped: the turn of the loop adds no account and throws
    nothing, and the loader returns what it returns without the entry. *)
Theorem entry_without_credentials_is_skipped `{host : Host}
    (before after : list string) (jsonPath text : string) (json : value)
    (accounts : list Account) (w : world) :
  readFileSync (fs w) jsonPath = Ok text →
  JSON_parse text = Ok json →
  truthy json && truthy (prop json "SteamLogin")
    && truthy (prop json "SteamPassword") = false →
  (readAccount jsonPath w).1 = Ok None
  ∧ (readAccountsFrom (before ++ jsonPath :: after) accounts w).1
    = (readAccountsFrom (before ++ after) accounts w).1.
Proof.
  intros Hr Hp Hc.
  split; [rewrite (readAccount_skips jsonPath text json w Hr Hp Hc); reflexivity|].
  assert (G : ∀ w', fs w' = fs w → ∀ accounts',
            (readAccountsFrom (before ++ jsonPath :: after) accounts' w').1
            = (readAccountsFrom (before ++ after) accounts' w').1);
    [|apply G; reflexivity].
  induction before as [|x before IH]; intros w' Hw' accounts'; simpl.
  - unfold bind at 1.
    rewrite (readAccount_skips jsonPath text json w') by (rewrite ?Hw'; assumption).
    apply (reader_readAccountsFrom after accounts' w'). reflexivity.
  - unfold bind.
    destruct (reader_readAccount x w') as [F _].
    destruct (readAccount x w') as [[r|e] w1]; simpl in *; [|reflexivity].
    apply IH. congruence.
Qed.

(** An empty object next to the account of [user]. *)
Lemma entry_without_credentials_is_skipped_witness :
  let w := mkWorld (host := Demo.host)
             (<["farms/empty.json" := Demo.File "{}"]> Demo.disk) [] in
  (readAccount (host := Demo.host) "farms/empty.json" w).1 = Ok None
  ∧ (readAccountsFrom (host := Demo.host)
       ([] ++ "farms/empty.json" :: ["farms/a1.json"]) [] w).1
    = (readAccountsFrom (host := Demo.host) ([] ++ ["farms/a1.json"]) [] w).1.
Proof.
  intros w.
  apply (entry_without_credentials_is_skipped (host := Demo.host)
           [] ["farms/a1.json"] "farms/empty.json" "{}" (Obj ∅) [] w);
    reflexivity.
Defined.

(** C5, as claimed, fails on a file that is not JSON: [JSON.parse] throws,
    nothing catches it, and the account of [user] is not loaded either. *)
Lemma unparseable_entry_stops_the_loader :
  let w := mkWorld (host := Demo.host)
             (<["farms/broken.json" := Demo.File "{"]> Demo.disk) [] in
  (readAccounts (host := Demo.host) ["farms/broken.json"; "farms/a1.json"] w).1
    = Throw (Error "SyntaxError" None)
  ∧ (readAccounts (host := Demo.host) ["farms/a1.json"] w).1 = Ok [Demo.a1].
Proof. vm_compute. split; reflexivity. Qed.

(** * Further properties *)

(** ** The dispatcher, status by status *)

Section DispatchFacts.
Context `{host : Host}.

Lemma onFinally_active (config : value) (i : nat) (t : task) :
  status (account t) = Active →
  onFinally config i t
    = (Ok tt, mkTask (account t) (bot t)
                (mkWorld (fs (env t)) (log (env t) ++ [EvStop i]))).
Proof.
  intros Hs. destruct t as [a b w]; simpl in Hs.
  unfold onFinally, dispatch, bind, stop, lift, gets, ret, emit, modify; simpl.
  rewrite Hs; simpl. reflexivity.
Qed.

Lemma onFinally_toggle (config : value) (i : nat) (t : task) (k : string) :
  toggleOf (status (account t)) = Some k →
  nullish config = false →
  onFinally config i t
    = if truthy (prop config k)
      then (stop i ;;; lift (emit (EvClean i) ;;; cleanAccount (account t))) t
      else stop i t.
Proof.
  intros Hk Hn. destruct t as [a b w]; simpl in Hk.
  unfold onFinally, dispatch, bind, stop, lift, gets, ret, emit, modify; simpl.
  destruct (status a); simpl in Hk; try discriminate; injection Hk as <-;
    destruct config; try discriminate Hn; simpl;
    unfold ret; simpl;
    match goal with
    | |- context [truthy ?x] => destruct (truthy x)
    | _ => idtac
    end; reflexivity.
Qed.

Lemma onFinally_nullish (config : value) (i : nat) (t : task) (k : string) :
  toggleOf (status (account t)) = Some k →
  nullish config = true →
  onFinally config i t
    = (Throw (Error "Cannot read properties of null" None),
       mkTask (account t) (bot t)
         (mkWorld (fs (env t)) (log (env t) ++ [EvStop i]))).
Proof.
  intros Hk Hn. destruct t as [a b w]; simpl in Hk.
  unfold onFinally, dispatch, bind, stop, lift, gets, ret, emit, modify; simpl.
  destruct (status a); simpl in Hk; try discriminate;
    destruct config; try discriminate Hn; reflexivity.
Qed.

End DispatchFacts.

(** X1: for an Active account the [finally] handler stops the bot and does
    nothing else: no call of cleanAccount, no call of [fs], the files as
    they were, whatever the configuration. *)
Theorem active_is_left_in_place `{host : Host} (config : value) (i : nat)
    (t : task) :
  status (account t) = Active →
  onFinally config i t
    = (Ok tt, mkTask (account t) (bot t)
                (mkWorld (fs (env t)) (log (env t) ++ [EvStop i]))).
Proof. apply onFinally_active. Qed.

Lemma active_is_left_in_place_witness :
  let t := mkTask Demo.a1 (mkBot None (Some []) (Some (Int 5)))
                  (mkWorld (host := Demo.host) Demo.disk []) in
  onFinally (host := Demo.host) Null 0 t
    = (Ok tt, mkTask Demo.a1 (mkBot None (Some []) (Some (Int 5)))
                (mkWorld (host := Demo.host) Demo.disk [EvStop 0])).
Proof.
  intros t.
  exact (active_is_left_in_place (host := Demo.host) Null 0 t eq_refl).
Defined.

(** X2: for a Banned account the [finally] handler calls cleanAccount
    exactly when [config.CleanBannedAccounts] is truthy, for a Limited one
    exactly when [config.CleanLimitedAccounts] is; a toggle that is absent
    from the configuration counts as off. *)
Theorem banned_and_limited_follow_their_toggle `{host : Host} (config : value)
    (i : nat) (t : task) (k : string) :
  toggleOf (status (account t)) = Some k →
  nullish config = false →
  onFinally config i t
    = if truthy (prop config k)
      then (stop i ;;; lift (emit (EvClean i) ;;; cleanAccount (account t))) t
      else (Ok tt, mkTask (account t) (bot t)
                     (mkWorld (fs (env t)) (log (env t) ++ [EvStop i]))).
Proof.
  intros Hk Hn. rewrite (onFinally_toggle config i t k Hk Hn).
  destruct (truthy (prop config k)); reflexivity.
Qed.

(** A Banned account under the empty configuration [{}]: left in place. *)
Lemma banned_and_limited_follow_their_toggle_witness :
  let t := mkTask (setStatus Demo.a1 Banned) (mkBot None None None)
                  (mkWorld (host := Demo.host) Demo.disk []) in
  onFinally (host := Demo.host) (Obj ∅) 0 t
    = (Ok tt, mkTask (setStatus Demo.a1 Banned) (mkBot None None None)
                (mkWorld (host := Demo.host) Demo.disk [EvStop 0])).
Proof.
  intros t.
  exact (banned_and_limited_follow_their_toggle (host := Demo.host) (Obj ∅) 0 t
           "CleanBannedAccounts" eq_refl eq_refl).
Defined.

(** X3: when the configuration file holds [null], the [finally] handler of
    a Banned or Limited account throws a TypeError after it has stopped the
    bot: the chain is rejected and the files stay. *)
Theorem null_config_rejects_the_chain `{host : Host} (config : value)
    (i : nat) (t : task) (k : string) :
  toggleOf (status (account t)) = Some k →
  nullish config = true →
  (onFinally config i t).1 = Throw (Error "Cannot read properties of null" None)
  ∧ fs (env (onFinally config i t).2) = fs (env t)
  ∧ log (env (onFinally config i t).2) = log (env t) ++ [EvStop i].
Proof.
  intros Hk Hn. rewrite (onFinally_nullish config i t k Hk Hn).
  repeat split.
Qed.

Lemma null_config_rejects_the_chain_witness :
  let t := mkTask (setStatus Demo.a1 Limited) (mkBot None None None)
                  (mkWorld (host := Demo.host) Demo.disk []) in
  (onFinally (host := Demo.host) Null 0 t).1
    = Throw (Error "Cannot read properties of null" None)
  ∧ fs (env (onFinally (host := Demo.host) Null 0 t).2) = fs (env t)
  ∧ log (env (onFinally (host := Demo.host) Null 0 t).2) = log (env t) ++ [EvStop 0].
Proof.
  intros t.
  exact (null_config_rejects_the_chain (host := Demo.host) Null 0 t
           "CleanLimitedAccounts" eq_refl eq_refl).
Defined.

(** ** The chain of one account, end to end *)

Section ChainFacts.
Context `{host : Host}.

(** A call of [bot.start()] that succeeds stores the signals of its
    answer. *)
Lemma start_signals (i : nat) (att : attempt) (t : task) :
  startFailure (account t) att = None →
  start i att t
    = (Ok tt,
       mkTask (account t)
         (mkBot (proxy (bot t)) (Some (bansOf att)) (Some (levelOf att)))
         (mkWorld (fs (env t)) (log (env t) ++ [EvStart i]))).
Proof.
  destruct t as [a [p b l] w], att as [g s c sm fl].
  unfold start, startFailure, bansOf, levelOf, retrieveToken, retrieveCookies,
    retriveBansInfo, retrieveProfileLevel, stop, setBans, setLevel, lift, emit,
    bind, try_catch, modify, gets, ret, throw; simpl.
  destruct (truthy (secret a)), g as [eg|], s as [es|], c as [ec|],
    sm as [page|esm], fl as [text|efl]; simpl; try discriminate;
    destruct (String.eqb text ""); simpl; try discriminate; reflexivity.
Qed.

(** The bot of a retried task holds the signals of the first call that
    succeeded. *)
Lemma retry_signals (i : nat) (o : RetryOptions) (service : nat → attempt)
    (left n : nat) (t : task) :
  match firstSuccess (account t) service left n with
  | Some att =>
      let t' := (pRetryFrom (λ ms, lift (emit (EvWait i ms))) o left n
                   (λ n, start i (service n)) t).2 in
      bans (bot t') = Some (bansOf att) ∧ level (bot t') = Some (levelOf att)
  | None => True
  end.
Proof.
  revert n t. induction left as [|left IH]; intros n t; simpl;
    unfold try_catch;
    destruct (startFailure (account t) (service n)) as [e|] eqn:F;
    try exact I;
    try (rewrite (start_signals i (service n) t F); simpl; split; reflexivity).
  destruct (start_run i (service n) t) as (b & E & _). rewrite E, F.
  unfold bind at 1, lift at 1; simpl.
  exact (IH (S n) (mkTask (account t) b _)).
Qed.

Lemma retryOutcome_firstSuccess (a : Account) (service : nat → attempt)
    (left n : nat) :
  match firstSuccess a service left n with
  | Some _ => retryOutcome a service left n = Ok tt
  | None => ∃ e, retryOutcome a service left n
                 = Throw (Error "Failed to start" (Some e))
  end.
Proof.
  revert n. induction left as [|left IH]; intros n; simpl;
    destruct (startFailure a (service n)) as [e|]; try reflexivity.
  - exists e. reflexivity.
  - apply IH.
Qed.

(** The handlers leave of the account what the task left, with the status
    they assign. *)
Lemma handlers_account (config : value) (i : nat) (p : M task unit) (t : task) :
  account (handlers config i p t).2
    = setStatus (account (p t).2) (assigned (p t).1 (bot (p t).2)).
Proof.
  unfold handlers, finally. rewrite classifier_settled.
  destruct (p t) as [r t1]; simpl. rewrite classifier_run; simpl.
  match goal with
  | |- context [onFinally config i ?t'] =>
      destruct (onFinally_run (λ _, false) (λ _ _, eq_refl) config i t' eq_refl)
        as (Ha & _);
      destruct (onFinally config i t') as [[u|e] t'']
  end; simpl in *; exact Ha.
Qed.

(** The handlers are the classifier, then the [finally] handler on what it
    left. *)
Lemma handlers_world (config : value) (i : nat) (p : M task unit) (t : task) :
  env (handlers config i p t).2
    = env (onFinally config i (classifier i (settled (p t).1) (p t).2).2).2.
Proof.
  unfold handlers, finally. rewrite classifier_settled.
  destruct (p t) as [r t1]; simpl. rewrite classifier_run; simpl.
  match goal with
  | |- context [onFinally config i ?t'] =>
      destruct (onFinally config i t') as [[u|e] t'']
  end; reflexivity.
Qed.

(** After [bot.stop()], the [finally] handler either is done, or calls
    cleanAccount, which calls [fs] and nothing else. *)
Lemma dispatch_log (config : value) (i : nat) (t : task) :
  ∃ new : list event,
    log (env (dispatch config i t).2) = log (env t) ++ new
    ∧ (new = [] ∨ ∃ rest, new = EvClean i :: rest ∧ count notFs rest = 0%nat).
Proof.
  assert (Hclean : ∃ new, log (env (lift (emit (EvClean i) ;;; cleanAccount (account t)) t).2)
                          = log (env t) ++ new
                          ∧ (new = [] ∨ ∃ rest, new = EvClean i :: rest
                                                ∧ count notFs rest = 0%nat)).
  { destruct (silentW_cleanAccount notFs) with (a := account t)
      (w := mkWorld (fs (env t)) (log (env t) ++ [EvClean i])) as (rest & Hl & Hn).
    { intros e He. unfold notFs. rewrite He. reflexivity. }
    exists (EvClean i :: rest). split; [|right; eauto].
    destruct t as [a b w]. unfold lift, bind, emit, modify; simpl in *.
    destruct (cleanAccount a _) as [[u|e] w']; simpl in *;
      rewrite Hl, <- app_assoc; reflexivity. }
  assert (Hnone : ∃ new, log (env t) = log (env t) ++ new
                         ∧ (new = [] ∨ ∃ rest, new = EvClean i :: rest
                                               ∧ count notFs rest = 0%nat)).
  { exists []. rewrite app_nil_r. split; [reflexivity|left; reflexivity]. }
  destruct t as [a b w].
  unfold dispatch, bind, gets, ret in *; simpl in *.
  destruct (decide (status a = Active)); [exact Hnone|].
  destruct (decide (status a = Banned)), (decide (status a = Limited));
    destruct config; simpl; unfold ret, throw; simpl;
    repeat match goal with
           | |- context [truthy ?x] => destruct (truthy x); simpl
           end;
    first [exact Hclean | exact Hnone].
Qed.

Lemma onFinally_log (config : value) (i : nat) (t : task) :
  ∃ after : list event,
    log (env (onFinally config i t).2) = log (env t) ++ [EvStop i] ++ after
    ∧ (after = [] ∨ ∃ rest, after = EvClean i :: rest ∧ count notFs rest = 0%nat).
Proof.
  destruct (dispatch_log config i
              (mkTask (account t) (bot t)
                 (mkWorld (fs (env t)) (log (env t) ++ [EvStop i]))))
    as (after & Hl & Hafter).
  exists after. split; [|exact Hafter].
  cbn [account bot env fs log] in Hl. rewrite app_assoc, <- Hl.
  unfold onFinally, bind, stop, lift, emit, modify. reflexivity.
Qed.

End ChainFacts.

Lemma count_zero_impl (f g : event → bool) (l : list event) :
  (∀ e, f e = true → g e = true) →
  count g l = 0%nat → count f l = 0%nat.
Proof.
  intros Hfg. induction l as [|e l IH]; [reflexivity|].
  rewrite !count_cons. specialize (Hfg e).
  destruct (f e), (g e); simpl; try discriminate; try exact IH.
  discriminate (Hfg eq_refl).
Qed.

Lemma classify_not_unknown (bans : list string) (level : option jsnumber) :
  classify bans level ≠ Unknown.
Proof.
  unfold classify. destruct (0 <? length bans)%nat, (levelIsZero level);
    discriminate.
Qed.

(** X4: the status of an account is that of the first of its four attempts
    that succeeds: Banned when the support messages page of that attempt
    shows the restriction notice, else Limited when its level text parses to
    0, else Active; Unknown when no attempt succeeds.  What earlier, failed
    attempts had stored in the bot does not count. *)
Theorem status_is_that_of_first_success `{host : Host} (config : value)
    (i : nat) (service : nat → attempt) (t : task) :
  status (account (handlers config i (taskOf i service) t).2)
    = match firstSuccess (account t) service 3 0 with
      | Some att => classify (bansOf att) (Some (levelOf att))
      | None => Unknown
      end.
Proof.
  rewrite handlers_account.
  pose proof (retry_signals i retryOptions service 3 0 t) as Hs.
  pose proof (retryOutcome_firstSuccess (account t) service 3 0) as Ho.
  destruct (taskOf_run i service t) as (b & E & _).
  change (pRetryFrom (λ ms, lift (emit (EvWait i ms))) retryOptions 3 0
            (λ n, start i (service n)) t) with (taskOf i service t) in Hs.
  rewrite E in *. cbn [fst snd account bot status setStatus] in *.
  destruct (firstSuccess (account t) service 3 0) as [att|].
  - destruct Hs as [Hb Hl]. rewrite Ho. unfold assigned. rewrite Hb, Hl.
    reflexivity.
  - destruct Ho as [e ->]. reflexivity.
Qed.

Example status_after_one_failure :
  status (account (handlers (host := Demo.host) getDefaultConfig 0
                     (taskOf 0 (λ n, if Nat.eqb n 0 then Demo.down
                                     else mkAttempt None None None
                                            (Ok "Account functionality has been restricted")
                                            (Ok "0")))
                     (mkTask Demo.a1 (mkBot None None None)
                             (mkWorld (host := Demo.host) Demo.disk []))).2)
  = Banned.
Proof. vm_compute. reflexivity. Qed.

(** X5: an account is Unknown exactly when its task failed.  Its line in
    the log is then [Failed to start], whatever went wrong; the line of a
    task that succeeded carries the status written. *)
Theorem unknown_iff_task_failed `{host : Host} (config : value) (i : nat)
    (service : nat → attempt) (t : task) :
  let final := (handlers config i (taskOf i service) t).2 in
  match (taskOf i service t).1 with
  | Ok _ =>
      status (account final) ≠ Unknown
      ∧ EvLogInfo i (status (account final)) ∈ log (env final)
  | Throw _ =>
      status (account final) = Unknown
      ∧ EvLogError i "Failed to start" ∈ log (env final)
  end.
Proof.
  intros final. subst final.
  destruct (handlers_run (λ _, false) config i service t (λ _ _, eq_refl) eq_refl)
    as (b & new & Ha & Hl & _ & Hb).
  pose proof (retryOutcome_firstSuccess (account t) service 3 0) as Ho.
  destruct (taskOf_run i service t) as (b0 & E & _). rewrite E; cbn [fst].
  cbn zeta in Ha, Hl, Hb. rewrite Ha, Hl. cbn [status setStatus].
  clear E Hl.
  generalize (retryTrace i (account t) retryOptions service 3 0); intros trace.
  destruct (firstSuccess (account t) service 3 0) as [att|].
  - rewrite Ho in Hb |- *. destruct (Hb eq_refl) as [[l Hbans] _].
    unfold assigned, logged. rewrite Hbans. split.
    + apply classify_not_unknown.
    + rewrite !elem_of_app, !elem_of_cons. clear. intuition congruence.
  - destruct Ho as [e Ho]. rewrite Ho. split; [reflexivity|].
    unfold logged. simpl. rewrite !elem_of_app, !elem_of_cons. clear. intuition congruence.
Qed.

(** X6: the chain of an account that ends Active leaves the files as they
    were. *)
Theorem active_account_keeps_its_files `{host : Host} (config : value)
    (i : nat) (service : nat → attempt) (t : task) :
  status (account (handlers config i (taskOf i service) t).2) = Active →
  fs (env (handlers config i (taskOf i service) t).2) = fs (env t).
Proof.
  rewrite handlers_account, handlers_world. cbn [status setStatus].
  destruct (taskOf_run i service t) as (b & E & _). rewrite E; cbn [fst snd bot].
  intros Hs. rewrite classifier_run; cbn [snd account bot env fs log].
  rewrite onFinally_active by (cbn [account status setStatus]; exact Hs).
  reflexivity.
Qed.

Lemma active_account_keeps_its_files_witness :
  fs (env (handlers (host := Demo.host) getDefaultConfig 0
             (taskOf 0 (λ _, Demo.up))
             (mkTask Demo.a1 (mkBot None None None)
                     (mkWorld (host := Demo.host) Demo.disk []))).2)
  = Demo.disk.
Proof.
  exact (active_account_keeps_its_files (host := Demo.host) getDefaultConfig 0
           (λ _, Demo.up)
           (mkTask Demo.a1 (mkBot None None None)
                   (mkWorld (host := Demo.host) Demo.disk []))
           eq_refl).
Defined.

(** X7: over one chain cleanAccount is called at most once, after the last
    [bot.stop()], and once it is called nothing but [fs] is. *)
Theorem clean_follows_the_last_stop `{host : Host} (config : value) (i : nat)
    (service : nat → attempt) (t : task) :
  ∃ before after : list event,
    log (env (handlers config i (taskOf i service) t).2)
      = log (env t) ++ before ++ [EvStop i] ++ after
    ∧ count (isClean i) before = 0%nat
    ∧ count (isStop i) after = 0%nat
    ∧ (after = [] ∨ ∃ rest, after = EvClean i :: rest ∧ count notFs rest = 0%nat).
Proof.
  rewrite handlers_world.
  destruct (taskOf_run i service t) as (b & E & _). rewrite E; cbn [fst snd].
  rewrite classifier_run; cbn [snd account bot env fs log].
  set (s := assigned (retryOutcome (account t) service 3 0) b).
  set (l := logged i (retryOutcome (account t) service 3 0) b).
  match goal with
  | |- context [onFinally config i ?t2] =>
      destruct (onFinally_log config i t2) as (after & Hl & Hafter)
  end.
  cbn [account bot env fs log] in Hl. rewrite Hl.
  exists (retryTrace i (account t) retryOptions service 3 0 ++ [EvStatus i s; l]), after.
  split; [rewrite <- !app_assoc; reflexivity|].
  split.
  { rewrite count_app, count_retryTrace by reflexivity.
    subst l. unfold logged.
    destruct (retryOutcome (account t) service 3 0) as [[]|e], (bans b);
      reflexivity. }
  split; [|exact Hafter].
  destruct Hafter as [->|(rest & -> & Hrest)]; [reflexivity|].
  rewrite count_cons; simpl.
  apply (count_zero_impl _ notFs); [|exact Hrest].
  intros e He. destruct e; simpl in *; (reflexivity || discriminate).
Qed.

(** X8: a chain changes nothing of its account but the status: the id,
    the login, the password and the secret come out of it as they went in,
    whatever the task and the handlers did.  When every chain has run, the
    accounts are in the order of the queue. *)
Theorem chain_changes_the_status_only `{host : Host} (config : value)
    (services : nat → nat → attempt) (i : nat) (t : task)
    (tasks : list (Account * Bot)) (w : world) :
  account (handlers config i (taskOf i (services i)) t).2
    = setStatus (account t)
        (status (account (handlers config i (taskOf i (services i)) t).2))
  ∧ match (runChains config services 0 tasks w).1 with
    | Ok accounts' =>
        Forall2 (λ task a', a' = setStatus task.1 (status a')) tasks accounts'
    | Throw _ => True
    end.
Proof.
  split.
  - destruct (chain_run config i (services i) t) as (s & new & Ha & _).
    rewrite Ha. reflexivity.
  - destruct (runChains_run config services tasks 0 w) as (ran & new & _ & _ & _ & H).
    destruct (runChains config services 0 tasks w).1; [apply H|exact I].
Qed.

(** ** The proxies *)

(** X9: with proxies, every account gets one of them, and the account
    [length proxies] places further gets the same one.  The proxies are
    dealt in turn: the accounts of every round, [length proxies] of them
    from a multiple of it on, get the proxies in the order of the list. *)
Theorem proxies_are_dealt_in_turn (proxies : list string) (index round : nat) :
  proxies ≠ [] →
  (∃ p : string,
     proxyFor proxies index = Some p
     ∧ p ∈ proxies
     ∧ proxyFor proxies (index + length proxies) = Some p
     ∧ proxyFor proxies (index mod length proxies) = Some p)
  ∧ List.map (proxyFor proxies) (seq (round * length proxies) (length proxies))
    = List.map Some proxies.
Proof.
  intros Hne. unfold proxyFor.
  assert (Hlen : length proxies ≠ 0%nat) by (destruct proxies; simpl; congruence).
  split.
  - assert (Hlt : (index mod length proxies < length proxies)%nat)
      by (apply Nat.mod_upper_bound; exact Hlen).
    destruct (lookup_lt_is_Some_2 proxies _ Hlt) as [p Hp].
    exists p. split; [exact Hp|]. split; [eapply list_elem_of_lookup_2; exact Hp|].
    split.
    + replace (index + length proxies)%nat with (index + 1 * length proxies)%nat by lia.
      rewrite Nat.Div0.mod_add. exact Hp.
    + rewrite Nat.Div0.mod_mod. exact Hp.
  - apply (List.nth_ext _ _ None None).
    + rewrite !length_map, length_seq. reflexivity.
    + intros n Hn. rewrite length_map, length_seq in Hn.
      rewrite (List.nth_indep _ None (proxies !! (0 mod length proxies)%nat))
        by (rewrite length_map, length_seq; exact Hn).
      rewrite (List.map_nth (λ index, proxies !! (index mod length proxies)%nat)).
      rewrite List.seq_nth by exact Hn.
      rewrite Nat.add_comm, Nat.Div0.mod_add, Nat.mod_small by exact Hn.
      destruct (lookup_lt_is_Some_2 proxies n Hn) as [p Hp]. rewrite Hp.
      symmetry.
      rewrite (List.nth_indep _ None (Some p)) by (rewrite length_map; exact Hn).
      rewrite (List.map_nth Some).
      f_equal. apply List.nth_error_nth.
      rewrite <- Hp. symmetry. clear. revert n.
      induction proxies as [|q proxies IH]; intros [|n]; simpl; auto.
Qed.

Lemma proxies_are_dealt_in_turn_witness :
  (∃ p : string,
     proxyFor ["p1"; "p2"] 3 = Some p
     ∧ p ∈ ["p1"; "p2"]
     ∧ proxyFor ["p1"; "p2"] (3 + length ["p1"; "p2"]) = Some p
     ∧ proxyFor ["p1"; "p2"] (3 mod length ["p1"; "p2"]) = Some p)
  ∧ List.map (proxyFor ["p1"; "p2"]) (seq (4 * length ["p1"; "p2"]) (length ["p1"; "p2"]))
    = List.map Some ["p1"; "p2"].
Proof.
  apply (proxies_are_dealt_in_turn ["p1"; "p2"] 3 4). discriminate.
Defined.

Example proxies_by_account :
  List.map (proxyFor ["p1"; "p2"; "p3"]) (seq 0 7)
    = List.map Some ["p1"; "p2"; "p3"; "p1"; "p2"; "p3"; "p1"]
  ∧ proxyFor [] 5 = None.
Proof. split; reflexivity. Qed.

Lemma unique_elem_of (l seen : list string) (x : string) :
  x ∈ Lines.unique seen l ↔ x ∈ l ∧ x ∉ seen.
Proof.
  revert seen. induction l as [|y l IH]; intros seen; simpl.
  - rewrite elem_of_nil. tauto.
  - destruct (bool_decide_reflect (y ∈ seen)) as [Hy|Hy].
    + rewrite IH, elem_of_cons. split; [tauto|].
      intros [[->|Hx] Hn]; [contradiction|tauto].
    + rewrite !elem_of_cons, IH, elem_of_cons.
      destruct (decide (x = y)) as [->|Hxy]; [tauto|tauto].
Qed.

Lemma unique_NoDup (l seen : list string) : NoDup (Lines.unique seen l).
Proof.
  revert seen. induction l as [|y l IH]; intros seen; simpl; [constructor|].
  destruct (bool_decide (y ∈ seen)); [apply IH|].
  constructor; [|apply IH].
  rewrite unique_elem_of, elem_of_cons. tauto.
Qed.

Lemma trimStart_head (s : string) :
  match ParseInt.trimStart s with
  | EmptyString => True
  | String c _ => ParseInt.isWhiteSpace c = false
  end.
Proof.
  induction s as [|c s IH]; simpl; [exact I|].
  destruct (ParseInt.isWhiteSpace c) eqn:E; [exact IH|exact E].
Qed.

Lemma trimEnd_cons (c : ascii) (s : string) :
  ParseInt.isWhiteSpace c = false →
  Lines.trimEnd (String c s) = String c (Lines.trimEnd s).
Proof.
  intros Hc. cbn [Lines.trimEnd]. rewrite Hc.
  destruct (Lines.trimEnd s); reflexivity.
Qed.

Lemma trimEnd_idem (s : string) :
  Lines.trimEnd (Lines.trimEnd s) = Lines.trimEnd s.
Proof.
  induction s as [|c s IH]; [reflexivity|].
  cbn [Lines.trimEnd].
  destruct (Lines.trimEnd s) as [|d rest] eqn:E.
  - destruct (ParseInt.isWhiteSpace c) eqn:Hc; [reflexivity|].
    cbn [Lines.trimEnd]. rewrite Hc. reflexivity.
  - change (Lines.trimEnd (String c (String d rest)))
      with (match Lines.trimEnd (String d rest) with
            | EmptyString => if ParseInt.isWhiteSpace c then EmptyString
                             else String c EmptyString
            | r => String c r
            end).
    rewrite IH. reflexivity.
Qed.

Lemma trim_idem (s : string) : Lines.trim (Lines.trim s) = Lines.trim s.
Proof.
  unfold Lines.trim.
  pose proof (trimStart_head s) as Hh.
  destruct (ParseInt.trimStart s) as [|c u]; [reflexivity|].
  rewrite (trimEnd_cons c u Hh).
  cbn [ParseInt.trimStart]. rewrite Hh.
  rewrite (trimEnd_cons c _ Hh), trimEnd_idem. reflexivity.
Qed.

(** X10: readProxies never throws and writes nothing.  When the file can
    be read its proxies are the lines of the file, trimmed, without the
    empty ones, each once: no proxy occurs twice, none is empty, none has
    white space around it.  When the file cannot be read there is no
    proxy. *)
Theorem readProxies_gives_clean_proxies `{dirs : HostDirs} (w : world) :
  ∃ proxies : list string,
    readProxies w
      = (Ok proxies, mkWorld (fs w) (log w ++ [EvRead proxiesFilePath]))
    ∧ NoDup proxies
    ∧ Forall (λ p, p ≠ "" ∧ trimmed p) proxies
    ∧ match readFileSync (fs w) proxiesFilePath with
      | Ok fileContent =>
          ∀ p, p ∈ proxies ↔
               p ≠ "" ∧ p ∈ List.map Lines.trim (Lines.split "010"%char fileContent)
      | Throw _ => proxies = []
      end.
Proof.
  unfold readProxies, try_catch, bind, fs_readFileSync, emit, modify, ret; simpl.
  destruct (readFileSync (fs w) proxiesFilePath) as [content|e]; simpl.
  - eexists. split; [reflexivity|].
    assert (Hin : ∀ p,
              p ∈ Lines.unique []
                    (List.filter (λ proxy, negb (String.eqb proxy ""))
                       (List.map Lines.trim (Lines.split "010"%char content)))
              ↔ p ≠ "" ∧ p ∈ List.map Lines.trim (Lines.split "010"%char content)).
    { intros p. rewrite unique_elem_of, list_elem_of_In, List.filter_In,
        <- list_elem_of_In, negb_true_iff, String.eqb_neq, elem_of_nil. tauto. }
    split; [apply unique_NoDup|]. split; [|exact Hin].
    apply Forall_forall. intros p Hp. apply Hin in Hp as [Hne Hp].
    split; [exact Hne|].
    apply list_elem_of_In, List.in_map_iff in Hp as (line & <- & _).
    apply trim_idem.
  - exists []. repeat split; constructor.
Qed.

(** ** The loader, further *)

Section LoaderFacts.
Context `{host : Host}.

Ltac loader_cases :=
  repeat (simpl;
          match goal with
          | H : truthy ?x = _ |- context [truthy ?x] => rewrite H
          | |- context [existsSync ?f ?x] => destruct (existsSync f x)
          | |- context [readFileSync ?f ?x] => destruct (readFileSync f x)
          | |- context [JSON_parse ?x] => destruct (JSON_parse x)
          | |- context [truthy ?x] => destruct (truthy x) eqn:?
          end).

(** The sidecars change the secret only, to a truthy value. *)
Lemma readSecret_keeps (i : string) (s : AccountStatus) (u p : value) (w : world) :
  match (readSecret (mkAccount i s u p Null) w).1 with
  | Ok a =>
      id a = i ∧ status a = s ∧ username a = u ∧ password a = p
      ∧ (secret a = Null ∨ truthy (secret a) = true)
  | Throw _ => True
  end.
Proof.
  unfold readSecret, readDb, readMafile, setSecret,
    fs_existsSync, fs_readFileSync, parse, emit, bind, ret, gets, modify.
  loader_cases; simpl; auto 10.
Qed.

Lemma readAccount_loaded (jsonPath : string) (w : world) :
  match (readAccount jsonPath w).1 with
  | Ok (Some a) =>
      truthy (username a) = true ∧ truthy (password a) = true
      ∧ status a = Active
      ∧ (secret a = Null ∨ truthy (secret a) = true)
      ∧ id a = accountId jsonPath
  | _ => True
  end.
Proof.
  unfold readAccount. unfold bind at 1.
  destruct (fs_readFileSync jsonPath w) as [[text|e] w1]; cbn beta iota;
    [|exact I].
  unfold bind at 1, parse at 1.
  destruct (JSON_parse text) as [json|e]; cbn beta iota; [|exact I].
  destruct (truthy json); cbn [negb orb]; [|exact I].
  destruct (truthy (prop json "SteamLogin")) eqn:Hu; cbn [negb orb]; [|exact I].
  destruct (truthy (prop json "SteamPassword")) eqn:Hp; cbn [negb orb]; [|exact I].
  unfold bind.
  pose proof (readSecret_keeps (accountId jsonPath) Active
                (prop json "SteamLogin") (prop json "SteamPassword") w1) as Hk.
  destruct (readSecret _ w1) as [[a|e] w2]; unfold ret; cbn [fst] in *;
    [|exact I].
  destruct Hk as (Hi & Hs & Hun & Hpw & Hsec).
  rewrite Hun, Hpw. auto.
Qed.

Lemma readAccountsFrom_loaded (listing filePaths : list string) :
  (∀ p, p ∈ filePaths → p ∈ listing ∧ JS.endsWith p ".json" = true) →
  ∀ (accounts : list Account) (w : world),
    Forall (loaded listing) accounts →
    match (readAccountsFrom filePaths accounts w).1 with
    | Ok accounts' =>
        Forall (loaded listing) accounts'
        ∧ (length accounts' ≤ length accounts + length filePaths)%nat
    | Throw _ => True
    end.
Proof.
  induction filePaths as [|p rest IH]; intros Hin accounts w Hacc; simpl.
  - split; [exact Hacc|lia].
  - unfold bind.
    pose proof (readAccount_loaded p w) as Hp.
    destruct (readAccount p w) as [[r|e] w1]; simpl in *; [|exact I].
    assert (Hrest : ∀ q, q ∈ rest → q ∈ listing ∧ JS.endsWith q ".json" = true)
      by (intros q Hq; apply Hin; right; exact Hq).
    destruct r as [a|].
    + assert (Ha : Forall (loaded listing) (accounts ++ [a])).
      { apply Forall_app. split; [exact Hacc|]. constructor; [|constructor].
        destruct Hp as (H1 & H2 & H3 & H4 & H5).
        repeat split; try assumption.
        exists p. destruct (Hin p) as [? ?]; [left|]; auto. }
      specialize (IH Hrest (accounts ++ [a]) w1 Ha).
      destruct (readAccountsFrom rest (accounts ++ [a]) w1) as [[l|e] w2];
        simpl in *; [|exact I].
      rewrite length_app in IH. simpl in IH. destruct IH; split; [assumption|lia].
    + specialize (IH Hrest accounts w1 Hacc).
      destruct (readAccountsFrom rest accounts w1) as [[l|e] w2];
        simpl in *; [|exact I].
      destruct IH; split; [assumption|lia].
Qed.

Lemma silentW_reads (f : event → bool) :
  (∀ p, f (EvExists p) = false) → (∀ p, f (EvRead p) = false) →
  (∀ p, silentW f (fs_existsSync p)) ∧ (∀ p, silentW f (fs_readFileSync p)).
Proof.
  intros Hex Hrd. split; intros p.
  - apply silentW_bind; [apply silentW_emit, Hex|intros _; apply silentW_gets].
  - apply silentW_bind; [apply silentW_emit, Hrd|intros _].
    apply silentW_same. reflexivity.
Qed.

Lemma silentW_readAccountsFrom (f : event → bool) (filePaths : list string) :
  (∀ p, f (EvExists p) = false) → (∀ p, f (EvRead p) = false) →
  ∀ accounts, silentW f (readAccountsFrom filePaths accounts).
Proof.
  intros Hex Hrd.
  destruct (silentW_reads f Hex Hrd) as [Sex Srd].
  assert (Sparse : ∀ text, silentW f (parse text))
    by (intros text; apply silentW_same; reflexivity).
  assert (Sdb : ∀ a, silentW f (readDb a)).
  { intros a. apply silentW_bind; [apply Sex|intros [|]; [|apply silentW_ret]].
    apply silentW_bind; [apply Srd|intros text].
    apply silentW_bind; [apply Sparse|intros db].
    destruct (truthy _); apply silentW_ret. }
  assert (Sma : ∀ ext a, silentW f (readMafile ext a)).
  { intros ext a. apply silentW_bind.
    { destruct (negb _); [apply Sex|apply silentW_ret]. }
    intros [|]; [|apply silentW_ret].
    apply silentW_bind; [apply Srd|intros text].
    apply silentW_bind; [apply Sparse|intros mafile].
    destruct (truthy _); apply silentW_ret. }
  assert (Sacc : ∀ p, silentW f (readAccount p)).
  { intros p. apply silentW_bind; [apply Srd|intros text].
    apply silentW_bind; [apply Sparse|intros json].
    destruct (_ || _); [apply silentW_ret|].
    apply silentW_bind; [|intros a; apply silentW_ret].
    apply silentW_bind; [apply Sdb|intros a].
    apply silentW_bind; [apply Sma|intros a']. apply Sma. }
  induction filePaths as [|p rest IH]; intros accounts; simpl.
  - apply silentW_ret.
  - apply silentW_bind; [apply Sacc|intros r; apply IH].
Qed.

End LoaderFacts.

(** X11: every account readAccounts returns has a truthy login and a truthy
    password, is Active, has [null] or a truthy value for secret, and has
    the id made from a path of the listing that ends in [.json]; there are
    no more accounts than paths. *)
Theorem loaded_accounts_are_well_formed `{host : Host} (listing : list string)
    (w : world) :
  match (readAccounts listing w).1 with
  | Ok accounts =>
      Forall (loaded listing) accounts
      ∧ (length accounts ≤ length listing)%nat
  | Throw _ => True
  end.
Proof.
  unfold readAccounts.
  assert (H' : ∀ p, p ∈ List.filter (λ f, JS.endsWith f ".json") listing →
                    p ∈ listing ∧ JS.endsWith p ".json" = true).
  { intros p Hp. apply list_elem_of_In, List.filter_In in Hp as [Hp He].
    split; [apply list_elem_of_In; exact Hp|exact He]. }
  pose proof (readAccountsFrom_loaded listing _ H' [] w (List.Forall_nil _)) as Hl.
  destruct (readAccountsFrom _ [] w) as [[l|e] w1]; simpl in *; [|exact I].
  destruct Hl as [Hall Hlen]. split; [exact Hall|].
  pose proof (List.filter_length_le (λ f, JS.endsWith f ".json") listing). lia.
Qed.

(** X12: past the listing of the directory, the loop of readAccounts over
    the credential files calls nothing of [fs] but existsSync and
    readFileSync, whatever the files hold and however it ends: it makes no
    directory and moves no file, and the files are as they were. *)
Theorem loader_loop_only_reads `{host : Host} (filePaths : list string)
    (accounts : list Account) (w : world) :
  ∃ new : list event,
    log (readAccountsFrom filePaths accounts w).2 = log w ++ new
    ∧ count notRead new = 0%nat
    ∧ fs (readAccountsFrom filePaths accounts w).2 = fs w.
Proof.
  destruct (silentW_readAccountsFrom notRead filePaths (λ _, eq_refl) (λ _, eq_refl)
              accounts w) as (new & Hl & Hn).
  exists new. split; [exact Hl|]. split; [exact Hn|].
  apply (reader_readAccountsFrom filePaths accounts w).
Qed.

(** X13: a credential file that cannot be read, or is not JSON, ends
    readAccounts with the error as it was thrown: the accounts gathered so
    far are lost and the files after it are not read. *)
Theorem bad_credentials_end_the_loader `{host : Host} (jsonPath : string)
    (after : list string) (accounts : list Account) (e : error) (w : world) :
  readFileSync (fs w) jsonPath = Throw e
  ∨ (∃ text, readFileSync (fs w) jsonPath = Ok text ∧ JSON_parse text = Throw e) →
  readAccountsFrom (jsonPath :: after) accounts w
    = (Throw e, mkWorld (fs w) (log w ++ [EvRead jsonPath])).
Proof.
  intros H. simpl.
  unfold readAccount, bind, fs_readFileSync, parse, emit, modify; simpl.
  destruct H as [->|(text & -> & ->)]; reflexivity.
Qed.

Lemma bad_credentials_end_the_loader_witness :
  let w := mkWorld (host := Demo.host)
             (<["farms/broken.json" := Demo.File "{"]> Demo.disk) [] in
  readAccountsFrom (host := Demo.host) ("farms/broken.json" :: ["farms/a1.json"]) [] w
    = (Throw (Error "SyntaxError" None),
       mkWorld (fs w) (log w ++ [EvRead "farms/broken.json"])).
Proof.
  intros w.
  apply (bad_credentials_end_the_loader (host := Demo.host) "farms/broken.json"
           ["farms/a1.json"] [] (Error "SyntaxError" None) w).
  right. exists "{". split; reflexivity.
Defined.

(** X14: a [.db] sidecar that exists and cannot be read, or is not JSON,
    ends the loading too: the error is thrown as it is and the other
    sidecars are not tried. *)
Theorem bad_sidecar_ends_the_loader `{host : Host} (i : string)
    (s : AccountStatus) (u p : value) (e : error) (w : world) :
  existsSync (fs w) (i +:+ ".db") = true →
  readFileSync (fs w) (i +:+ ".db") = Throw e
  ∨ (∃ text, readFileSync (fs w) (i +:+ ".db") = Ok text
             ∧ JSON_parse text = Throw e) →
  readSecret (mkAccount i s u p Null) w
    = (Throw e,
       mkWorld (fs w) ((log w ++ [EvExists (i +:+ ".db")]) ++ [EvRead (i +:+ ".db")])).
Proof.
  intros Hex H.
  unfold readSecret, readDb, bind, fs_existsSync, fs_readFileSync, parse, emit,
    modify, gets; simpl.
  rewrite Hex; simpl.
  destruct H as [->|(text & -> & ->)]; reflexivity.
Qed.

Lemma bad_sidecar_ends_the_loader_witness :
  let w := mkWorld (host := Demo.host)
             (<["farms/a1.db" := Demo.File "not json"]> Demo.disk) [] in
  readSecret (host := Demo.host)
    (mkAccount "farms/a1" Active (Str "user") (Str "pass") Null) w
    = (Throw (Error "SyntaxError" None),
       mkWorld (fs w) ((log w ++ [EvExists "farms/a1.db"]) ++ [EvRead "farms/a1.db"])).
Proof.
  intros w.
  apply (bad_sidecar_ends_the_loader (host := Demo.host) "farms/a1" Active
           (Str "user") (Str "pass") (Error "SyntaxError" None) w).
  - reflexivity.
  - right. exists "not json". split; reflexivity.
Defined.

(** The witness of [accountId_strips_extension]. *)
Lemma accountId_strips_extension_witness :
  accountId ("farms/a1" +:+ ".json") = "farms/a1".
Proof. apply (accountId_strips_extension "farms/a1"). reflexivity. Defined.

(** ** The bot, further *)

(** X16: a call of [bot.start()] either succeeds, and the bot holds the
    bans and the level of the answer, or throws [Failed to start] around
    its cause after it has stopped the bot.  Either way it leaves the
    account and the files alone. *)
Theorem start_succeeds_or_stops_the_bot `{host : Host} (i : nat) (att : attempt)
    (t : task) :
  let t' := (start i att t).2 in
  account t' = account t
  ∧ fs (env t') = fs (env t)
  ∧ match (start i att t).1 with
    | Ok _ =>
        log (env t') = log (env t) ++ [EvStart i]
        ∧ bans (bot t') = Some (bansOf att)
        ∧ level (bot t') = Some (levelOf att)
    | Throw e =>
        log (env t') = log (env t) ++ [EvStart i; EvStop i]
        ∧ ∃ cause, e = Error "Failed to start" (Some cause)
    end.
Proof.
  intros t'. subst t'.
  destruct (start_run i att t) as (b & E & _).
  destruct (startFailure (account t) att) as [e|] eqn:F.
  - rewrite E; simpl. repeat split. exists e. reflexivity.
  - rewrite (start_signals i att t F); simpl. repeat split.
Qed.

(** X17: of the cookies of the session, the jar gets all but those of the
    language, in their order, and then [Steam_Language=english]: the only
    language cookie it gets; it gets them for both sites. *)
Theorem english_is_the_only_language_cookie (cookies : list string) :
  List.filter (String.prefix "Steam_Language=") (languageCookies cookies)
    = ["Steam_Language=english"]
  ∧ List.filter (λ cookie, negb (String.prefix "Steam_Language=" cookie))
      (languageCookies cookies)
    = List.filter (λ cookie, negb (String.prefix "Steam_Language=" cookie)) cookies
  ∧ List.map fst
      (List.filter (λ call, String.eqb call.2 "https://steamcommunity.com")
         (jarCalls (languageCookies cookies)))
    = languageCookies cookies
  ∧ List.map fst
      (List.filter (λ call, String.eqb call.2 "https://store.steampowered.com")
         (jarCalls (languageCookies cookies)))
    = languageCookies cookies.
Proof.
  unfold languageCookies.
  assert (Hnone : ∀ l,
            List.filter (String.prefix "Steam_Language=")
              (List.filter (λ c, negb (String.prefix "Steam_Language=" c)) l) = []).
  { induction l as [|c l IH]; [reflexivity|]. simpl.
    destruct (String.prefix "Steam_Language=" c) eqn:E; simpl; [exact IH|].
    rewrite E. exact IH. }
  assert (Hsame : ∀ l,
            List.filter (λ c, negb (String.prefix "Steam_Language=" c))
              (List.filter (λ c, negb (String.prefix "Steam_Language=" c)) l)
            = List.filter (λ c, negb (String.prefix "Steam_Language=" c)) l).
  { induction l as [|c l IH]; [reflexivity|]. simpl.
    destruct (String.prefix "Steam_Language=" c) eqn:E; simpl; [exact IH|].
    rewrite E; simpl. rewrite IH. reflexivity. }
  assert (Hjar : ∀ l,
            List.map fst
              (List.filter (λ call, String.eqb call.2 "https://steamcommunity.com")
                 (jarCalls l)) = l
            ∧ List.map fst
                (List.filter (λ call, String.eqb call.2 "https://store.steampowered.com")
                   (jarCalls l)) = l).
  { induction l as [|c l [IH1 IH2]]; [split; reflexivity|].
    split; simpl; [rewrite IH1|rewrite IH2]; reflexivity. }
  split; [rewrite List.filter_app, Hnone; reflexivity|].
  split; [rewrite List.filter_app, Hsame; simpl; apply app_nil_r|].
  apply Hjar.
Qed.

Example language_cookies :
  languageCookies ["sessionid=1"; "Steam_Language=russian"; "steamLoginSecure=2"]
  = ["sessionid=1"; "steamLoginSecure=2"; "Steam_Language=english"].
Proof. reflexivity. Qed.

(** ** cleanAccount *)

Section CleanFacts.
Context `{host : Host}.

Lemma silentW_move (f : event → bool) (directoryPath path : string) :
  f (EvExists path) = false →
  f (EvRename path (path_resolve directoryPath (path_basename path))) = false →
  silentW f (moveIfExists directoryPath path).
Proof.
  intros Hex Hmv. unfold moveIfExists.
  apply silentW_bind.
  { apply silentW_bind; [apply silentW_emit, Hex|intros _; apply silentW_gets]. }
  intros [|]; [|apply silentW_ret].
  apply silentW_bind; [apply silentW_emit, Hmv|intros _].
  apply silentW_same. intros w.
  destruct (renameSync _ _ (fs w)); reflexivity.
Qed.

Lemma foreignTo_own (a : Account) (path : string) :
  path ∈ filesOf a →
  foreignTo a (EvRename path
                 (path_resolve
                    (path_resolve cleanedDirectoryPath (statusLabel (status a)))
                    (path_basename path))) = false.
Proof.
  intros Hin. unfold foreignTo.
  rewrite String.eqb_refl, andb_true_r, negb_false_iff.
  apply List.existsb_exists. exists path.
  split; [apply list_elem_of_In; exact Hin|apply String.eqb_refl].
Qed.

End CleanFacts.

(** X18: cleanAccount keeps to the account it is given: besides tests of
    existence, all it asks of [fs] is to make the directory of the status of
    the account and to move files of the account (its [.json], [.db],
    [.mafile], [.maFile], [.bin]) into that directory under their own
    names; it moves five files at most. *)
Theorem cleanAccount_moves_own_files_only `{host : Host} (a : Account) (w : world) :
  ∃ new : list event,
    log (cleanAccount a w).2 = log w ++ new
    ∧ count (foreignTo a) new = 0%nat
    ∧ (count isRename new ≤ 5)%nat.
Proof.
  assert (Hown : ∀ path, path ∈ filesOf a →
            silentW (foreignTo a)
              (moveIfExists (path_resolve cleanedDirectoryPath (statusLabel (status a)))
                 path)).
  { intros path Hin. apply silentW_move; [reflexivity|apply foreignTo_own, Hin]. }
  assert (Hlog : silentW (foreignTo a) (cleanAccount a)).
  { unfold cleanAccount.
    apply silentW_bind.
    { apply silentW_bind; [apply silentW_emit; reflexivity|intros _; apply silentW_gets]. }
    intros found. apply silentW_bind.
    { destruct found; [apply silentW_ret|].
      apply silentW_bind.
      - apply silentW_emit. unfold foreignTo. rewrite String.eqb_refl. reflexivity.
      - intros _. apply silentW_same. intros w0.
        destruct (mkdirSync _ (fs w0)); reflexivity. }
    intros _. apply silentW_bind.
    { apply silentW_bind.
      - apply silentW_emit, foreignTo_own. unfold filesOf. repeat constructor.
      - intros _. apply silentW_same. intros w0.
        destruct (renameSync _ _ (fs w0)); reflexivity. }
    intros _.
    repeat (apply silentW_bind;
            [apply Hown; unfold filesOf; repeat constructor|intros _]).
    apply Hown. unfold filesOf. repeat constructor. }
  destruct (Hlog w) as (new & Hl & Hn).
  exists new. split; [exact Hl|]. split; [exact Hn|].
  revert Hl. clear Hn Hlog Hown.
  unfold cleanAccount, moveIfExists, fs_existsSync, fs_mkdirSync,
    fs_renameSync, emit, modify, gets, ret, bind; simpl.
  repeat match goal with
         | |- context [existsSync ?f ?x] => destruct (existsSync f x); simpl
         | |- context [mkdirSync ?x ?f] => destruct (mkdirSync x f); simpl
         | |- context [renameSync ?x ?y ?f] => destruct (renameSync x y f); simpl
         end;
    rewrite <- ?app_assoc; simpl;
    intros Hl; apply app_inv_head in Hl; subst new;
    vm_compute; lia.
Qed.

(** X19: when the credential file of the account cannot be moved,
    cleanAccount throws the error of [fs.renameSync] and goes no further:
    no sidecar is looked for or moved. *)
Theorem cleanAccount_stops_at_the_primary_file `{host : Host} (a : Account)
    (e : error) (w : world) :
  let directoryPath := path_resolve cleanedDirectoryPath (statusLabel (status a)) in
  let target := path_resolve directoryPath (path_basename (id a +:+ ".json")) in
  existsSync (fs w) directoryPath = true →
  renameSync (id a +:+ ".json") target (fs w) = Throw e →
  cleanAccount a w
    = (Throw e,
       mkWorld (fs w)
         ((log w ++ [EvExists directoryPath]) ++ [EvRename (id a +:+ ".json") target])).
Proof.
  intros directoryPath target Hex Hmv. subst directoryPath target.
  unfold cleanAccount, fs_existsSync, fs_renameSync, emit, modify, gets, ret, bind;
    cbn -[statusLabel].
  rewrite Hex; cbn -[statusLabel]. rewrite Hmv. reflexivity.
Qed.

(** The account read from [farms/team.json/a1.json], with [cleaned/unknown]
    in place. *)
Lemma cleanAccount_stops_at_the_primary_file_witness :
  let a := mkAccount "farms/team/a1.json" Unknown (Str "user") (Str "pass") Null in
  let w := mkWorld (host := Demo.host)
             (<["cleaned/unknown" := Demo.Directory]>
                (<["farms/team.json/a1.json" := Demo.File Demo.credentialsText]> ∅)) [] in
  cleanAccount (host := Demo.host) a w
    = (Throw (Error "ENOENT" None),
       mkWorld (fs w)
         ((log w ++ [EvExists "cleaned/unknown"])
            ++ [EvRename "farms/team/a1.json.json" "cleaned/unknown/a1.json.json"])).
Proof.
  intros a w.
  apply (cleanAccount_stops_at_the_primary_file (host := Demo.host) a
           (Error "ENOENT" None) w); reflexivity.
Defined.

(** ** readConfig *)

(** X20: readConfig never throws and writes nothing: it gives what the
    configuration file parses to, and the defaults when the file cannot be
    read or is not JSON; under the defaults both toggles are on. *)
Theorem readConfig_falls_back_to_defaults `{host : Host} (w : world) :
  ∃ config : value,
    readConfig w = (Ok config, mkWorld (fs w) (log w ++ [EvRead configFilePath]))
    ∧ config = match readFileSync (fs w) configFilePath with
               | Ok fileContent =>
                   match JSON_parse fileContent with
                   | Ok v => v
                   | Throw _ => getDefaultConfig
                   end
               | Throw _ => getDefaultConfig
               end
    ∧ nullish getDefaultConfig = false
    ∧ truthy (prop getDefaultConfig "CleanBannedAccounts") = true
    ∧ truthy (prop getDefaultConfig "CleanLimitedAccounts") = true.
Proof.
  unfold readConfig, try_catch, bind, fs_readFileSync, parse, emit, modify, ret;
    simpl.
  destruct (readFileSync (fs w) configFilePath) as [text|e]; simpl;
    [destruct (JSON_parse text) as [v|e]; simpl|];
    eexists; repeat split.
Qed.

(** ** readDirectory *)

Section DirectoryFacts.
Context `{dirs : HostDirs}.

Lemma readEntities_files (recurse : string → option (result (list string)))
    (files : FS) (entities : list string) :
  (∀ q l, recurse q = Some (Ok l) →
          Forall (λ path, isDirectory files path = Ok false) l) →
  ∀ filePaths l,
    Forall (λ path, isDirectory files path = Ok false) filePaths →
    readEntities recurse files entities filePaths = Some (Ok l) →
    Forall (λ path, isDirectory files path = Ok false) l.
Proof.
  intros Hrec. induction entities as [|entity rest IH]; intros filePaths l Hacc; simpl.
  - intros [= <-]. exact Hacc.
  - destruct (isDirectory files entity) as [[|]|e] eqn:Hd; [| |discriminate].
    + destruct (recurse entity) as [[below|e]|] eqn:Hb; try discriminate.
      apply IH. apply Forall_app. split; [exact Hacc|exact (Hrec _ _ Hb)].
    + apply IH. apply Forall_app. split; [exact Hacc|].
      constructor; [exact Hd|constructor].
Qed.

Lemma readEntities_fuel (files : FS) (n : nat) (entities : list string) :
  (∀ entity, entity ∈ entities → isDirectory files entity = Ok true →
             ∃ r, ∀ k, readDirectory (n + k) files entity = Some r) →
  ∀ filePaths,
    ∃ r, ∀ k, readEntities (readDirectory (n + k) files) files entities filePaths
              = Some r.
Proof.
  induction entities as [|entity rest IH]; intros Hdir filePaths; simpl.
  - eexists. intros k. reflexivity.
  - assert (Hrest : ∀ q, q ∈ rest → isDirectory files q = Ok true →
                         ∃ r, ∀ k, readDirectory (n + k) files q = Some r)
      by (intros q Hq; apply Hdir; right; exact Hq).
    destruct (isDirectory files entity) as [[|]|e] eqn:Hd.
    + destruct (Hdir entity (list_elem_of_here _ _) Hd) as [[below|e] Hr].
      * destruct (IH Hrest (filePaths ++ below)) as [r Hk].
        exists r. intros k. rewrite Hr. apply Hk.
      * exists (Throw e). intros k. rewrite Hr. reflexivity.
    + destruct (IH Hrest (filePaths ++ [entity])) as [r Hk].
      exists r. exact Hk.
    + exists (Throw e). intros k. reflexivity.
Qed.

End DirectoryFacts.

(** X21: readDirectory returns files only: every path it returns was found
    by [fs.statSync] not to be a directory. *)
Theorem readDirectory_returns_files `{dirs : HostDirs} (fuel : nat) (files : FS)
    (entityPath : string) (filePaths : list string) :
  readDirectory fuel files entityPath = Some (Ok filePaths) →
  Forall (λ path, isDirectory files path = Ok false) filePaths.
Proof.
  revert entityPath filePaths.
  induction fuel as [|fuel IH]; intros entityPath filePaths; simpl; [discriminate|].
  destruct (String.eqb entityPath "" || negb (existsSync files entityPath)).
  - intros [= <-]. constructor.
  - destruct (readdirSync files entityPath) as [names|e]; [|discriminate].
    apply (readEntities_files _ files _ IH). constructor.
Qed.

Lemma readDirectory_returns_files_witness :
  Forall (λ path, @isDirectory Demo.host DemoDirs.dirs farm path = Ok false)
    ["farms/old/a2.json"; "farms/a1.json"].
Proof.
  apply (readDirectory_returns_files (dirs := DemoDirs.dirs) 3 farm "farms").
  vm_compute. reflexivity.
Defined.

(** X22: on a tree that is [n] directories deep at most, readDirectory
    returns, and more fuel than [n] changes nothing of what it returns.
    What it returns for a path that is empty or missing is the empty
    list, and for a directory that cannot be listed the error of
    [fs.readdirSync]. *)
Theorem readDirectory_returns `{dirs : HostDirs} (n : nat) (files : FS)
    (entityPath : string) :
  walkable files n entityPath →
  ∃ r,
    (∀ k, readDirectory (n + k) files entityPath = Some r)
    ∧ (String.eqb entityPath "" || negb (existsSync files entityPath) = true →
       r = Ok [])
    ∧ (∀ e, String.eqb entityPath "" || negb (existsSync files entityPath) = false →
            readdirSync files entityPath = Throw e → r = Throw e).
Proof.
  revert entityPath. induction n as [|n IH]; intros entityPath Hw;
    [inversion Hw|].
  inversion Hw as [m p Hleaf|m p names Hnames Hbelow]; subst; simpl.
  - destruct Hleaf as [Hstop|[e He]].
    + exists (Ok []). rewrite Hstop. repeat split. intros; discriminate.
    + destruct (String.eqb entityPath "" || negb (existsSync files entityPath)).
      * exists (Ok []). repeat split. intros; discriminate.
      * exists (Throw e). rewrite He. repeat split; [intros; discriminate|].
        intros e' _ [= <-]. reflexivity.
  - destruct (String.eqb entityPath "" || negb (existsSync files entityPath)).
    + exists (Ok []). repeat split. intros; discriminate.
    + rewrite Hnames.
      destruct (readEntities_fuel files n (List.map (path_join entityPath) names))
        with (filePaths := @nil string) as [r Hr].
      { intros entity Hin Hd.
        apply list_elem_of_In, List.in_map_iff in Hin as (name & <- & Hin).
        destruct (IH (path_join entityPath name)) as (r & Hr & _);
          [apply Hbelow; [apply list_elem_of_In; exact Hin|exact Hd]|].
        exists r. exact Hr. }
      exists r. split; [exact Hr|]. split; intros; discriminate.
Qed.

Lemma readDirectory_returns_witness :
  ∃ r,
    (∀ k, readDirectory (dirs := DemoDirs.dirs) (2 + k) farm "farms" = Some r)
    ∧ (String.eqb "farms" "" || negb (existsSync (Host := Demo.host) farm "farms") = true →
       r = Ok [])
    ∧ (∀ e, String.eqb "farms" "" || negb (existsSync (Host := Demo.host) farm "farms") = false →
            @readdirSync Demo.host DemoDirs.dirs farm "farms" = Throw e → r = Throw e).
Proof.
  apply (readDirectory_returns (dirs := DemoDirs.dirs) 2 farm "farms").
  apply (walkable_dir (dirs := DemoDirs.dirs) farm 1 "farms" ["old"; "a1.json"]);
    [vm_compute; reflexivity|].
  intros name Hin Hd.
  apply elem_of_cons in Hin as [->|Hin].
  - apply (walkable_dir (dirs := DemoDirs.dirs) farm 0 _ ["a2.json"]);
      [vm_compute; reflexivity|].
    intros name' Hin' Hd'.
    apply elem_of_cons in Hin' as [->|Hin'];
      [vm_compute in Hd'; discriminate Hd'|inversion Hin'].
  - apply elem_of_cons in Hin as [->|Hin];
      [vm_compute in Hd; discriminate Hd|inversion Hin].
Defined.

Example readDirectory_farm :
  readDirectory (dirs := DemoDirs.dirs) 2 farm "farms"
    = Some (Ok ["farms/old/a2.json"; "farms/a1.json"])
  ∧ readDirectory (dirs := DemoDirs.dirs) 1 farm "farms" = None
  ∧ readDirectory (dirs := DemoDirs.dirs) 1 farm "nowhere" = Some (Ok []).
Proof. vm_compute. repeat split. Qed.

Example readProxies_file :
  (readProxies (dirs := DemoDirs.dirs)
     (mkWorld (host := Demo.host)
        (<["proxies.txt" :=
             Demo.File (" p1 " +:+ String "010"%char
                          (String "010"%char
                             ("p2" +:+ String "013"%char
                                (String "010"%char ("p1" +:+ String "010"%char "")))))]> ∅)
        [])).1
  = Ok ["p1"; "p2"].
Proof. vm_compute. reflexivity. Qed.

(** ** The whole run *)

Section RunFacts.
Context `{host : Host}.


(** The [finally] handler when it cleans. *)
Lemma clean_log (i : nat) (t : task) :
  ∃ rest : list event,
    log (env ((stop i ;;; lift (emit (EvClean i) ;;; cleanAccount (account t))) t).2)
      = log (env t) ++ [EvStop i; EvClean i] ++ rest
    ∧ count (isClean i) rest = 0%nat.
Proof.
  destruct (silentW_cleanAccount (isClean i)) with (a := account t)
    (w := mkWorld (fs (env t)) ((log (env t) ++ [EvStop i]) ++ [EvClean i]))
    as (rest & Hl & Hn).
  { intros e He. destruct e; simpl in *; (reflexivity || discriminate). }
  exists rest. split; [|exact Hn].
  unfold bind, stop, lift, emit, modify; simpl in *.
  destruct (cleanAccount (account t) _) as [[u|e] w']; simpl in *;
    rewrite Hl, <- !app_assoc; reflexivity.
Qed.

Lemma onFinally_default (i : nat) (t : task) :
  ∃ after : list event,
    log (env (onFinally getDefaultConfig i t).2) = log (env t) ++ [EvStop i] ++ after
    ∧ count (isClean i) after
      = if decide (status (account t) = Active) then 0%nat else 1%nat.
Proof.
  destruct (decide (status (account t) = Active)) as [Ha|Ha].
  - rewrite (onFinally_active _ i t Ha). exists []. split; reflexivity.
  - destruct (clean_log i t) as (rest & Hl & Hn).
    exists (EvClean i :: rest). split.
    + transitivity
        (log (env ((stop i ;;; lift (emit (EvClean i) ;;; cleanAccount (account t)))
                     t).2));
        [|rewrite Hl; reflexivity].
      f_equal. f_equal. f_equal.
      destruct t as [a b w]; simpl in Ha.
      unfold onFinally, dispatch, bind, stop, lift, gets, ret, emit, modify; simpl.
      destruct (status a); try contradiction; reflexivity.
    + rewrite count_cons, Hn. simpl. rewrite Nat.eqb_refl. reflexivity.
Qed.

End RunFacts.

(** X23: under the default configuration the chain of an account calls
    cleanAccount once when the account ends Banned, Limited or Unknown, and
    not at all when it ends Active. *)
Theorem defaults_clean_all_but_active `{host : Host} (i : nat)
    (service : nat → attempt) (t : task) :
  ∃ new : list event,
    log (env (handlers getDefaultConfig i (taskOf i service) t).2) = log (env t) ++ new
    ∧ count (isClean i) new
      = if decide (status (account (handlers getDefaultConfig i (taskOf i service) t).2)
                   = Active)
        then 0%nat else 1%nat.
Proof.
  rewrite handlers_account, handlers_world.
  destruct (taskOf_run i service t) as (b & E & _). rewrite E; cbn [fst snd bot].
  rewrite classifier_run; cbn [snd account bot env fs log status setStatus].
  set (s := assigned (retryOutcome (account t) service 3 0) b).
  set (l := logged i (retryOutcome (account t) service 3 0) b).
  match goal with
  | |- context [onFinally getDefaultConfig i ?t2] =>
      destruct (onFinally_default i t2) as (after & Hl & Hn)
  end.
  cbn [account bot env fs log status setStatus] in Hl, Hn. rewrite Hl.
  exists (retryTrace i (account t) retryOptions service 3 0
            ++ [EvStatus i s; l; EvStop i] ++ after).
  split; [rewrite <- !app_assoc; reflexivity|].
  rewrite !count_app, count_retryTrace by reflexivity.
  rewrite Hn. subst l. unfold logged.
  destruct (retryOutcome (account t) service 3 0) as [[]|e], (bans b);
    reflexivity.
Qed.

Example main_on_the_demo_disk :
  (main (host := Demo.host) (agents := Demo.agents)
     ["farms/a1.json"; "farms/a1.maFile"] ["http://p1"]
     (λ _ _, Demo.up) (mkWorld (host := Demo.host) Demo.disk [])).1
  = Ok [Demo.a1].
Proof. vm_compute. reflexivity. Qed.

(** ** The bots of the loop *)

Section BotFacts.
Context `{host : Host} `{agents : Agents}.



End BotFacts.


